(** * mcp-gateway: registry, health probes and load balancer

    A shallow embedding of
      - src/modules/gateway/server-registry.service.ts (ServerRegistryService)
      - src/gateway/LoadBalancer.ts and
        src/modules/gateway/load-balancer.service.ts (the two classes have
        the same selection code; the service only adds a log line)
      - the IMCPServer / ServerStatus interfaces of the types module
      - the callers and neighbours of these: GatewayService and
        GatewayController (modules/gateway), ApiKeyGuard, the Express
        middleware authMiddleware and validateRequest, HttpExceptionFilter,
        and the BaziServer handle class.

    Conventions.
      - A TypeScript [number] that the code uses as a counter or a time
        stamp is an exact integer here ([Z], or [nat] for the array cursor);
        IEEE rounding of very large values is outside the model.
      - A thrown value is represented by the message the registry reads
        from it ([error instanceof Error ? error.message : String(error)]);
        for the values a handle's executeTool throws, the handle class also
        says whether they are instances of one of the three exceptions the
        controller's catch block lets through.
      - A service handle is a reference into a store of handle objects, so
        the same object may be registered under several names.
      - A cached status is a value.  The one status object that the
        registry holds across an [await] (executeTool, lines 124-134) is
        read as the handle class says it reads after the call.
      - An awaited handle call is one step of the handle object.  The
        registry's executeTool can be suspended at its [await]; other
        operations may then run before its continuation. *)

From stdpp Require Import base numbers strings functions option list.

Open Scope Z_scope.

(** ** Completion records: a call returns a value or throws *)

Inductive Completion (A : Type) : Type :=
  | Return (value : A)
  | Throw (message : string).
Arguments Return {A} value.
Arguments Throw {A} message.

(** A thrown value is known by its message.  Of its class one thing
    matters, and only to the controller's catch block: whether it is an
    instance of one of the three Nest exceptions that block lets through. *)
Inductive HttpClass : Type :=
  | IsBadRequest
  | IsNotFound
  | IsServiceUnavailable.

(** ** ServerStatus (types module) *)

Record LoadInfo : Type := mkLoadInfo {
  activeRequests : Z;
  totalRequests : Z
}.

Record ServerStatus : Type := mkServerStatus {
  online : bool;
  lastUpdate : Z;
  responseTime : option Z;
  error : option string;
  load : option LoadInfo
}.

(** Object spreads [{ ...status, field: v }] used by the registry. *)

(** [{ ...status, responseTime }] *)
Definition with_responseTime (status : ServerStatus) (rt : Z) : ServerStatus :=
  {| online := online status;
     lastUpdate := lastUpdate status;
     responseTime := Some rt;
     error := error status;
     load := load status |}.

(** [{ ...status, online: false, error: msg }] *)
Definition with_offline_error (status : ServerStatus) (msg : string) : ServerStatus :=
  {| online := false;
     lastUpdate := lastUpdate status;
     responseTime := responseTime status;
     error := Some msg;
     load := load status |}.

(** [{ ...currentStatus, online: b, lastUpdate: now, error: e }] *)
Definition with_probe (status : ServerStatus) (b : bool) (now : Z)
    (e : option string) : ServerStatus :=
  {| online := b;
     lastUpdate := now;
     responseTime := responseTime status;
     error := e;
     load := load status |}.

(** ** JavaScript [Map<string, V>]

    Keys are unique and iteration follows insertion order; [set] on a key
    that is present keeps its position.  The probe loop and the list of
    names in the not-found message iterate the map, so the order is kept:
    the map is an association list. *)

Module JsMap.

Definition t (V : Type) : Type := list (string * V).

Definition empty {V : Type} : t V := [].

Fixpoint get {V : Type} (k : string) (m : t V) : option V :=
  match m with
  | [] => None
  | (k', v) :: m' => if String.eqb k' k then Some v else get k m'
  end.

Definition has {V : Type} (k : string) (m : t V) : bool :=
  match get k m with Some _ => true | None => false end.

Fixpoint set {V : Type} (k : string) (v : V) (m : t V) : t V :=
  match m with
  | [] => [(k, v)]
  | (k', v') :: m' =>
      if String.eqb k' k then (k', v) :: m' else (k', v') :: set k v m'
  end.

Fixpoint delete {V : Type} (k : string) (m : t V) : t V :=
  match m with
  | [] => []
  | (k', v') :: m' =>
      if String.eqb k' k then m' else (k', v') :: delete k m'
  end.

Definition keys {V : Type} (m : t V) : list string := map fst m.

Definition entries {V : Type} (m : t V) : list (string * V) := m.

End JsMap.

(** ** Messages of the thrown errors *)

(** [names.join(', ')] *)
Definition join_names (names : list string) : string :=
  String.concat ", " names.

(** getServer: [`MCP服务 '${name}' 未找到。可用服务: ${names.join(', ')}`] *)
Definition msg_not_found (name : string) (names : list string) : string :=
  "MCP服务 '" +:+ name +:+ "' 未找到。可用服务: " +:+ join_names names.

(** executeTool: [`服务 '${serverName}' 当前不可用`] *)
Definition msg_unavailable (name : string) : string :=
  "服务 '" +:+ name +:+ "' 当前不可用".

(** performHealthCheck, probe returned false *)
Definition msg_health_check_failed : string := "健康检查失败".

(** selectServer, empty candidate array; also the guards of the policies *)
Definition msg_no_instances : string := "没有可用的服务实例".

(** selectServer, no candidate is online *)
Definition msg_no_online_instances : string := "没有在线的服务实例".

(** ** The registry over a store of handle objects *)

Definition Ref : Type := nat.

Section Gateway.

Context {HState Params Result : Type}.

(** IMCPServer: the methods of a handle act on the object's own state.
    [getStatus] is a read; [executeTool] and [healthCheck] are awaited and
    either resolve or reject.  Of the data fields, [name], [description]
    and [status] are not read by the registry or the balancer and are left
    out.

    [getStatus] returns an object, and the registry's executeTool keeps the
    one it got before the awaited call and reads it again afterwards
    (lines 124 and 134).  [held_status s s'] is what the object returned
    in state [s] contains once the handle is in state [s']: the status of
    [s] for a handle that hands out a copy, the status of [s'] for one that
    hands out its own object and updates it in place.

    [rejection_class toolName params s] is the class of the value a
    rejected [executeTool(toolName, params)] throws in state [s]: one of
    the three exceptions of [HttpClass], or anything else ([None]). *)
Record IMCPServer : Type := mkIMCPServer {
  version : string;
  tools : list string;
  getStatus : HState -> ServerStatus;
  executeTool : string -> Params -> HState -> Completion Result * HState;
  healthCheck : HState -> Completion bool * HState;
  held_status : HState -> HState -> ServerStatus;
  rejection_class : string -> Params -> HState -> option HttpClass
}.

(** The class of every handle object. *)
Variable impl : Ref -> IMCPServer.

(** Calls the gateway made on handle objects, with how they completed. *)
Inductive Call : Type :=
  | CallExecuteTool (server : Ref) (toolName : string) (params : Params)
      (outcome : Completion Result)
  | CallHealthCheck (server : Ref) (outcome : Completion bool).

(** A call of the registry's executeTool suspended at its [await]
    (line 130): what its continuation still holds. *)
Record Pending : Type := mkPending {
  p_serverName : string;
  p_server : Ref;
  p_held : HState -> ServerStatus; (* the object [status] of line 124, as
                                      read in a later state of the handle *)
  p_startTime : Z;                 (* [startTime] of line 119 *)
  p_outcome : Completion Result    (* what the awaited promise settles to *)
}.

(** Everything outside the registry object: the handle objects, the calls
    made on them, and the executeTool calls waiting for their handle. *)
Record World : Type := mkWorld {
  objs : Ref -> HState;
  calls : list Call;
  pending : list Pending
}.

(** [server.getStatus()] *)
Definition status_of (w : World) (server : Ref) : ServerStatus :=
  getStatus (impl server) (objs w server).

(** [await server.executeTool(toolName, params)] *)
Definition invoke_executeTool (w : World) (server : Ref) (toolName : string)
    (params : Params) : Completion Result * World :=
  let '(outcome, s') := executeTool (impl server) toolName params (objs w server) in
  (outcome,
   {| objs := <[server := s']> (objs w);
      calls := calls w ++ [CallExecuteTool server toolName params outcome];
      pending := pending w |}).

(** [await server.healthCheck()] *)
Definition invoke_healthCheck (w : World) (server : Ref)
    : Completion bool * World :=
  let '(outcome, s') := healthCheck (impl server) (objs w server) in
  (outcome,
   {| objs := <[server := s']> (objs w);
      calls := calls w ++ [CallHealthCheck server outcome];
      pending := pending w |}).

Record Registry : Type := mkRegistry {
  servers : JsMap.t Ref;
  serverStatuses : JsMap.t ServerStatus
}.

Definition new_registry : Registry :=
  {| servers := JsMap.empty; serverStatuses := JsMap.empty |}.

(** register (lines 29-37); the warning and the log line have no effect on
    the state. *)
Definition register (name : string) (server : Ref) (w : World)
    (reg : Registry) : Registry :=
  {| servers := JsMap.set name server (servers reg);
     serverStatuses := JsMap.set name (status_of w server) (serverStatuses reg) |}.

(** unregister (lines 43-48): [Map.delete] returns whether the key was
    there. *)
Definition unregister (name : string) (reg : Registry) : Registry :=
  if JsMap.has name (servers reg)
  then {| servers := JsMap.delete name (servers reg);
          serverStatuses := JsMap.delete name (serverStatuses reg) |}
  else reg.

(** getServerNames (lines 88-90) *)
Definition getServerNames (reg : Registry) : list string :=
  JsMap.keys (servers reg).

(** getServer (lines 55-61) *)
Definition getServer (name : string) (reg : Registry) : Completion Ref :=
  match JsMap.get name (servers reg) with
  | Some server => Return server
  | None => Throw (msg_not_found name (getServerNames reg))
  end.

(** getServerStatus (lines 68-70); [None] is [null]. *)
Definition getServerStatus (name : string) (reg : Registry)
    : option ServerStatus :=
  JsMap.get name (serverStatuses reg).

(** hasServer (lines 107-109) *)
Definition hasServer (name : string) (reg : Registry) : bool :=
  JsMap.has name (servers reg).

(** updateServerStatus (lines 155-157) *)
Definition updateServerStatus (name : string) (status : ServerStatus)
    (reg : Registry) : Registry :=
  {| servers := servers reg;
     serverStatuses := JsMap.set name status (serverStatuses reg) |}.

(** *** executeTool (lines 118-148)

    The method has one suspension point, the [await] of the handle's
    executeTool.  [executeTool_begin] runs up to it, [executeTool_resume]
    runs the continuation (lines 132-136 on a resolved promise, the catch
    block on a rejected one) on the registry and the handles as they are
    by then; [executeTool_op] is a call during whose [await] nothing else
    runs.

    On a resolved promise the continuation spreads [status], the object
    obtained at line 124, as it reads after the [await]; on a rejected one
    the catch block asks the handle again. *)

Inductive Begun : Type :=
  | Finished (result : Completion Result) (reg : Registry)
  | Awaiting (p : Pending).

Definition executeTool_begin (serverName toolName : string) (params : Params)
    (startTime : Z) (reg : Registry) (w : World) : Begun * World :=
  match getServer serverName reg with
  | Throw msg => (Finished (Throw msg) reg, w)
  | Return server =>
      let status := status_of w server in
      if negb (online status) then
        (* thrown inside the try block: the catch block runs at once *)
        let msg := msg_unavailable serverName in
        let status' := status_of w server in
        (Finished (Throw msg)
           (updateServerStatus serverName (with_offline_error status' msg) reg),
         w)
      else
        let '(outcome, w') := invoke_executeTool w server toolName params in
        (Awaiting {| p_serverName := serverName; p_server := server;
                     p_held := held_status (impl server) (objs w server);
                     p_startTime := startTime;
                     p_outcome := outcome |},
         w')
  end.

Definition executeTool_resume (p : Pending) (endTime : Z) (reg : Registry)
    (w : World) : Completion Result * Registry :=
  match p_outcome p with
  | Return result =>
      let responseTime := endTime - p_startTime p in
      let status := p_held p (objs w (p_server p)) in
      (Return result,
       updateServerStatus (p_serverName p)
         (with_responseTime status responseTime) reg)
  | Throw msg =>
      let status := status_of w (p_server p) in
      (Throw msg,
       updateServerStatus (p_serverName p) (with_offline_error status msg) reg)
  end.

Definition executeTool_op (serverName toolName : string) (params : Params)
    (startTime endTime : Z) (reg : Registry) (w : World)
    : Completion Result * Registry * World :=
  match executeTool_begin serverName toolName params startTime reg w with
  | (Finished result reg', w') => (result, reg', w')
  | (Awaiting p, w') =>
      let '(result, reg') := executeTool_resume p endTime reg w' in
      (result, reg', w')
  end.

(** *** performHealthCheck (lines 174-205)

    One callback per entry of [this.servers], each with its own try/catch;
    [Promise.allSettled] waits for all of them.  [now name] is the
    [new Date()] read in the callback of service [name]. *)

(** The status written by one callback: the [try] branch on a settled
    probe, the [catch] branch on a raised one. *)
Definition probed_status (currentStatus : ServerStatus)
    (outcome : Completion bool) (now : Z) : ServerStatus :=
  match outcome with
  | Return isHealthy =>
      with_probe currentStatus isHealthy now
        (if isHealthy then None else Some msg_health_check_failed)
  | Throw msg =>
      with_probe currentStatus false now (Some msg)
  end.

Definition probe_entry (now : string -> Z) (st : Registry * World)
    (entry : string * Ref) : Registry * World :=
  let '(reg, w) := st in
  let '(name, server) := entry in
  let '(outcome, w') := invoke_healthCheck w server in
  match JsMap.get name (serverStatuses reg) with
  | None => (reg, w')                      (* [if (currentStatus)] fails *)
  | Some currentStatus =>
      (updateServerStatus name
         (probed_status currentStatus outcome (now name)) reg,
       w')
  end.

Definition performHealthCheck (now : string -> Z) (reg : Registry) (w : World)
    : Registry * World :=
  fold_left (probe_entry now) (JsMap.entries (servers reg)) (reg, w).

(** The two maps as register and unregister keep them: unique keys, and
    the same keys in the same order. *)
Definition well_formed (reg : Registry) : Prop :=
  NoDup (JsMap.keys (servers reg)) ∧
  JsMap.keys (servers reg) = JsMap.keys (serverStatuses reg).

(** *** Operations of the registry

    [run] applies a list of operations in order.  register, unregister and
    the other synchronous methods run to completion.  A call of executeTool
    is either [OpExecuteTool], during whose [await] nothing else runs, or
    the pair [OpExecuteBegin] ... [OpExecuteResume]: the first runs the
    method up to its [await] and leaves the call in [pending], the second
    runs the continuation of the [k]-th waiting call, and any operation may
    come between the two.  A probe round is one operation. *)

Inductive Op : Type :=
  | OpRegister (name : string) (server : Ref)
  | OpUnregister (name : string)
  | OpExecuteTool (serverName toolName : string) (params : Params)
      (startTime endTime : Z)
  | OpHealthCheck (now : string -> Z)
  | OpExecuteBegin (serverName toolName : string) (params : Params)
      (startTime : Z)
  | OpExecuteResume (k : nat) (endTime : Z).

(** The operations that no other operation can come in the middle of. *)
Definition serial (op : Op) : bool :=
  match op with
  | OpExecuteBegin _ _ _ _ | OpExecuteResume _ _ => false
  | _ => true
  end.

Definition suspend (p : Pending) (w : World) : World :=
  {| objs := objs w; calls := calls w; pending := pending w ++ [p] |}.

Definition settle (k : nat) (w : World) : World :=
  {| objs := objs w; calls := calls w; pending := delete k (pending w) |}.

Definition step (st : Registry * World) (op : Op) : Registry * World :=
  let '(reg, w) := st in
  match op with
  | OpRegister name server => (register name server w reg, w)
  | OpUnregister name => (unregister name reg, w)
  | OpExecuteTool serverName toolName params startTime endTime =>
      let '(_, reg', w') :=
        executeTool_op serverName toolName params startTime endTime reg w in
      (reg', w')
  | OpHealthCheck now => performHealthCheck now reg w
  | OpExecuteBegin serverName toolName params startTime =>
      match executeTool_begin serverName toolName params startTime reg w with
      | (Finished _ reg', w') => (reg', w')
      | (Awaiting p, w') => (reg, suspend p w')
      end
  | OpExecuteResume k endTime =>
      match pending w !! k with
      | None => (reg, w)
      | Some p =>
          let w' := settle k w in
          let '(_, reg') := executeTool_resume p endTime reg w' in
          (reg', w')
      end
  end.

Definition run (ops : list Op) (st : Registry * World) : Registry * World :=
  fold_left step ops st.

(** ** The load balancer (LoadBalancer.ts, load-balancer.service.ts) *)

(** The enum LoadBalancingStrategy is a string enum; the [switch] of
    selectServer has a [default] branch for any other value. *)
Definition ROUND_ROBIN : string := "round_robin".
Definition RANDOM : string := "random".
Definition LEAST_CONNECTIONS : string := "least_connections".

Record LoadBalancer : Type := mkLoadBalancer {
  strategy : string;
  roundRobinIndex : nat
}.

(** [new LoadBalancer(strategy)]; LoadBalancerService always starts with
    ROUND_ROBIN. *)
Definition new_LoadBalancer (s : string) : LoadBalancer :=
  {| strategy := s; roundRobinIndex := 0%nat |}.

(** A value of [Math.random()]: the fraction numer / (numer + slack + 1),
    which lies in the interval from 0 (included) to 1 (excluded). *)
Record Random : Type := mkRandom {
  numer : nat;
  slack : nat
}.

(** [Math.floor(Math.random() * len)] *)
Definition random_index (u : Random) (len : nat) : nat :=
  ((numer u * len) / (numer u + slack u + 1))%nat.

(** [status.load?.activeRequests || 0] *)
Definition connections (w : World) (server : Ref) : Z :=
  match load (status_of w server) with
  | Some l => activeRequests l
  | None => 0
  end.

(** An array read [servers[i]!]: [None] is [undefined]. *)

(** selectRoundRobin *)
Definition selectRoundRobin (lb : LoadBalancer) (servers : list Ref)
    : Completion (option Ref) * LoadBalancer :=
  if (length servers =? 0)%nat then (Throw msg_no_instances, lb)
  else
    let server := servers !! (roundRobinIndex lb mod length servers)%nat in
    (Return server,
     {| strategy := strategy lb; roundRobinIndex := S (roundRobinIndex lb) |}).

(** selectRandom *)
Definition selectRandom (u : Random) (servers : list Ref)
    : Completion (option Ref) :=
  if (length servers =? 0)%nat then Throw msg_no_instances
  else
    let randomIndex := random_index u (length servers) in
    Return (servers !! randomIndex).

(** The callback of the [reduce] in selectLeastConnections. *)
Definition pick_least (w : World) (least current : Ref) : Ref :=
  let leastConnections := connections w least in
  let currentConnections := connections w current in
  if currentConnections <? leastConnections then current else least.

(** selectLeastConnections: [reduce] without an initial value starts from
    the first element. *)
Definition selectLeastConnections (w : World) (servers : list Ref)
    : Completion (option Ref) :=
  match servers with
  | [] => Throw msg_no_instances
  | first :: rest => Return (Some (fold_left (pick_least w) rest first))
  end.

(** selectServer *)
Definition selectServer (lb : LoadBalancer) (u : Random) (w : World)
    (servers : list Ref) : Completion (option Ref) * LoadBalancer :=
  if (length servers =? 0)%nat then (Throw msg_no_instances, lb)
  else
    let availableServers :=
      List.filter (fun server => online (status_of w server)) servers in
    if (length availableServers =? 0)%nat
    then (Throw msg_no_online_instances, lb)
    else if String.eqb (strategy lb) ROUND_ROBIN
    then selectRoundRobin lb availableServers
    else if String.eqb (strategy lb) RANDOM
    then (selectRandom u availableServers, lb)
    else if String.eqb (strategy lb) LEAST_CONNECTIONS
    then (selectLeastConnections w availableServers, lb)
    else (Return (availableServers !! 0%nat), lb).

(** setStrategy *)
Definition setStrategy (s : string) (lb : LoadBalancer) : LoadBalancer :=
  {| strategy := s; roundRobinIndex := 0%nat |}.

(** getStrategy *)
Definition getStrategy (lb : LoadBalancer) : string := strategy lb.

(** [n] consecutive calls of selectServer on the same candidates, with no
    change of any handle in between; [us k] is the random number of call
    [k].  Returns the completions in call order and the final balancer. *)
Fixpoint selectServer_times (n : nat) (lb : LoadBalancer) (us : nat -> Random)
    (w : World) (servers : list Ref)
    : list (Completion (option Ref)) * LoadBalancer :=
  match n with
  | O => ([], lb)
  | S n' =>
      let '(c, lb') := selectServer lb (us O) w servers in
      let '(cs, lb'') :=
        selectServer_times n' lb' (fun k => us (S k)) w servers in
      (c :: cs, lb'')
  end.

End Gateway.

(** ** BaziServer, the handle class the application registers

    The counters of a status are kept by the handle: BaziServer.executeTool
    increments [activeRequests] and [totalRequests], runs the tool, and in
    its [finally] block decrements [activeRequests] and rewrites
    [this.status].  The tool bodies are a parameter: [run_tool] is what the
    [switch] on the tool name settles to (a result, or the thrown message of
    a validation error or of an unknown tool).  [finish_time n] is the
    [new Date()] read when request number [n] finishes. *)

Module Bazi.

Section BaziServer.

Context {Params Result : Type}.
Variable run_tool : string -> Params -> Completion Result.
Variable calculate_ok : bool.
Variable finish_time : Z -> Z.

Record state : Type := mkState {
  bz_status : ServerStatus;
  bz_totalRequests : Z;
  bz_activeRequests : Z
}.

(** The field initialisers of the class; [created] is the [new Date()] of
    the constructor call. *)
Definition initial (created : Z) : state :=
  {| bz_status :=
       {| online := true; lastUpdate := created; responseTime := None;
          error := None;
          load := Some {| activeRequests := 0; totalRequests := 0 |} |};
     bz_totalRequests := 0;
     bz_activeRequests := 0 |}.

(** updateStatus *)
Definition updateStatus (s : state) : state :=
  {| bz_status :=
       {| online := true;
          lastUpdate := finish_time (bz_totalRequests s);
          responseTime := None;
          error := None;
          load := Some {| activeRequests := bz_activeRequests s;
                          totalRequests := bz_totalRequests s |} |};
     bz_totalRequests := bz_totalRequests s;
     bz_activeRequests := bz_activeRequests s |}.

(** executeTool: counters up, the tool, then the [finally] block. *)
Definition bazi_executeTool (toolName : string) (params : Params) (s : state)
    : Completion Result * state :=
  let s1 := {| bz_status := bz_status s;
               bz_totalRequests := bz_totalRequests s + 1;
               bz_activeRequests := bz_activeRequests s + 1 |} in
  let outcome := run_tool toolName params in
  let s2 := {| bz_status := bz_status s1;
               bz_totalRequests := bz_totalRequests s1;
               bz_activeRequests := bz_activeRequests s1 - 1 |} in
  (outcome, updateStatus s2).

(** healthCheck: true when the basic computation resolves, false when it
    throws; it never rejects. *)
Definition bazi_healthCheck (s : state) : Completion bool * state :=
  (Return calculate_ok, s).

Definition server : @IMCPServer state Params Result :=
  {| version := "1.0.0";
     tools := ["getBaziDetail"; "getBaziFortune"; "getCompatibility";
               "getLuckyInfo"];
     getStatus := bz_status;               (* [{ ...this.status }] *)
     executeTool := bazi_executeTool;
     healthCheck := bazi_healthCheck;
     (* getStatus hands out a copy, and updateStatus replaces [this.status]
        and its [load] by new objects: a copy handed out is never changed *)
     held_status := fun s _ => bz_status s;
     (* executeTool throws [new Error(...)] and what the tools throw *)
     rejection_class := fun _ _ _ => None |}.

(** [this.status.load] mirrors the private counters, as after the
    constructor and after every updateStatus. *)
Definition mirrored (s : state) : Prop :=
  load (bz_status s)
  = Some {| activeRequests := bz_activeRequests s;
            totalRequests := bz_totalRequests s |}.

End BaziServer.

End Bazi.

(** ** A scripted handle class

    A handle object whose answers are fixed by its state: [getStatus]
    returns [stub_status], [executeTool] settles to [stub_exec] and adds
    [stub_leak] to the reported activeRequests, [healthCheck] settles to
    [stub_health]. *)

Module Stub.

Record state : Type := mkState {
  stub_status : ServerStatus;
  stub_exec : Completion unit;
  stub_health : Completion bool;
  stub_leak : Z
}.

Definition bump (d : Z) (s : ServerStatus) : ServerStatus :=
  {| online := online s;
     lastUpdate := lastUpdate s;
     responseTime := responseTime s;
     error := error s;
     load := match load s with
             | Some l => Some {| activeRequests := activeRequests l + d;
                                 totalRequests := totalRequests l |}
             | None => None
             end |}.

Definition server : @IMCPServer state unit unit :=
  {| version := "1.0.0";
     tools := ["op1"];
     getStatus := stub_status;
     executeTool := fun _ _ s =>
       (stub_exec s,
        {| stub_status := bump (stub_leak s) (stub_status s);
           stub_exec := stub_exec s;
           stub_health := stub_health s;
           stub_leak := stub_leak s |});
     healthCheck := fun s => (stub_health s, s);
     held_status := fun s _ => stub_status s;       (* hands out copies *)
     rejection_class := fun _ _ _ => None |}.       (* throws plain errors *)

Definition impl : Ref -> @IMCPServer state unit unit := fun _ => server.

(** A status that reports online, last updated at time 0, no call in
    flight. *)
Definition idle : ServerStatus :=
  {| online := true; lastUpdate := 0; responseTime := None; error := None;
     load := Some {| activeRequests := 0; totalRequests := 0 |} |}.

(** Online, [executeTool] resolves, the probe answers false. *)
Definition unhealthy_but_serving : state :=
  {| stub_status := idle; stub_exec := Return tt;
     stub_health := Return false; stub_leak := 0 |}.

(** Online, [executeTool] rejects with "boom" and leaves one request
    counted as active. *)
Definition failing_leaky : state :=
  {| stub_status := idle; stub_exec := Throw "boom";
     stub_health := Return true; stub_leak := 1 |}.

(** Online with [n] requests in flight; [executeTool] resolves and the
    probe answers true. *)
Definition with_active (n : Z) : state :=
  {| stub_status :=
       {| online := true; lastUpdate := 0; responseTime := None;
          error := None;
          load := Some {| activeRequests := n; totalRequests := n |} |};
     stub_exec := Return tt; stub_health := Return true; stub_leak := 0 |}.

(** Online, but the probe itself raises. *)
Definition raising_probe : state :=
  {| stub_status := idle; stub_exec := Return tt;
     stub_health := Throw "probe crashed"; stub_leak := 0 |}.

(** A world in which every handle object is in state [s]. *)
Definition world (s : state) : @World state unit unit :=
  {| objs := fun _ => s; calls := []; pending := [] |}.

(** A world with handle 0 in state [s0] and every other handle in [s1]. *)
Definition world2 (s0 s1 : state) : @World state unit unit :=
  {| objs := fun r => if (r =? 0)%nat then s0 else s1; calls := [];
     pending := [] |}.

(** The registry after [register("svc-a", handle 0)] in world [w]. *)
Definition registered (w : @World state unit unit) : Registry :=
  register impl "svc-a" 0%nat w new_registry.

(** The registry after registering handle 0 as "svc-a" and handle 1 as
    "svc-b". *)
Definition registered2 (w : @World state unit unit) : Registry :=
  register impl "svc-b" 1%nat w (register impl "svc-a" 0%nat w new_registry).

End Stub.

(** ** A handle class that hands out its own status object

    [getStatus] returns the one status object the handle keeps, and
    [executeTool] updates that object in place: it counts the call in
    [load] and sets [online] to [live_online_after].  The call settles to
    [live_exec]; a rejection is an instance of [live_class]. *)

Module LiveStub.

Record state : Type := mkState {
  live_status : ServerStatus;
  live_exec : Completion unit;
  live_online_after : bool;
  live_class : option HttpClass
}.

Definition count_call (online_after : bool) (s : ServerStatus) : ServerStatus :=
  {| online := online_after;
     lastUpdate := lastUpdate s;
     responseTime := responseTime s;
     error := error s;
     load := match load s with
             | Some l => Some {| activeRequests := activeRequests l;
                                 totalRequests := totalRequests l + 1 |}
             | None => None
             end |}.

Definition server : @IMCPServer state unit unit :=
  {| version := "1.0.0";
     tools := ["op1"];
     getStatus := live_status;
     executeTool := fun _ _ s =>
       (live_exec s,
        {| live_status := count_call (live_online_after s) (live_status s);
           live_exec := live_exec s;
           live_online_after := live_online_after s;
           live_class := live_class s |});
     healthCheck := fun s => (Return true, s);
     held_status := fun _ s' => live_status s';
     rejection_class := fun _ _ s => live_class s |}.

Definition impl : Ref -> @IMCPServer state unit unit := fun _ => server.

(** Online and idle; [executeTool] resolves and leaves the handle
    reporting offline. *)
Definition closing : state :=
  {| live_status := Stub.idle; live_exec := Return tt;
     live_online_after := false; live_class := None |}.

(** Online and idle; [executeTool] rejects with a
    ServiceUnavailableException whose message is "busy". *)
Definition refusing : state :=
  {| live_status := Stub.idle; live_exec := Throw "busy";
     live_online_after := true; live_class := Some IsServiceUnavailable |}.

Definition world (s : state) : @World state unit unit :=
  {| objs := fun _ => s; calls := []; pending := [] |}.

Definition registered (w : @World state unit unit) : Registry :=
  register impl "svc-a" 0%nat w new_registry.

End LiveStub.

(** * The other methods of the registry, and its callers *)

(** ** Read methods of ServerRegistryService *)

Section RegistryReads.

Context {HState Params Result : Type}.
Variable impl : Ref -> @IMCPServer HState Params Result.

(** getAvailableServers (lines 96-100): the filter asks the handle, not the
    cache. *)
Definition getAvailableServers (reg : Registry) (w : World) : list string :=
  map fst
    (List.filter (fun entry : string * Ref =>
                    online (status_of impl w (snd entry)))
       (JsMap.entries (servers reg))).

(** One element of the array built by getAllServersStatus. *)
Record ServerRow : Type := mkServerRow {
  row_name : string;
  row_status : ServerStatus;
  row_tools : list string
}.

(** getAllServersStatus (lines 76-82):
    [this.serverStatuses.get(name) || server.getStatus()]. *)
Definition getAllServersStatus (reg : Registry) (w : World) : list ServerRow :=
  map (fun entry : string * Ref =>
         {| row_name := fst entry;
            row_status :=
              match JsMap.get (fst entry) (serverStatuses reg) with
              | Some status => status
              | None => status_of impl w (snd entry)
              end;
            row_tools := tools (impl (snd entry)) |})
    (JsMap.entries (servers reg)).

(** The object returned by getStats.  The counts are JavaScript numbers;
    [offlineServers] is a difference and is kept in [Z]. *)
Record Stats : Type := mkStats {
  totalServers : Z;
  onlineServers : Z;
  offlineServers : Z;
  totalTools : Z
}.

(** getStats (lines 222-239) *)
Definition getStats (reg : Registry) : Stats :=
  let statuses := map snd (JsMap.entries (serverStatuses reg)) in
  let onlineCount := Z.of_nat (length (List.filter online statuses)) in
  let totalTools :=
    fold_left (fun total server =>
                 total + Z.of_nat (length (tools (impl server))))
      (map snd (JsMap.entries (servers reg))) 0 in
  {| totalServers := Z.of_nat (length (servers reg));
     onlineServers := onlineCount;
     offlineServers := Z.of_nat (length (servers reg)) - onlineCount;
     totalTools := totalTools |}.

End RegistryReads.

(** ** JavaScript helpers used by the callers *)

(** [v || d] on an optional string: [undefined] and the empty string are
    falsy. *)
Definition or_default (v : option string) (d : string) : string :=
  match v with
  | Some s => if String.eqb s "" then d else s
  | None => d
  end.

(** Truthiness of an optional string. *)
Definition truthy (v : option string) : bool :=
  match v with
  | Some s => negb (String.eqb s "")
  | None => false
  end.

(** [s.includes(sub)] *)
Fixpoint includes (s sub : string) : bool :=
  if String.prefix sub s then true
  else match s with
       | EmptyString => false
       | String _ s' => includes s' sub
       end.

(** ** GatewayService and GatewayController (modules/gateway)

    GatewayService forwards to the registry (it only adds log lines).
    GatewayController turns the outcomes into a reply or into one of
    NestJS's HTTP exceptions.  As everywhere in this development, a value
    thrown by a handle is a plain error known by its message; it is not an
    instance of one of the HTTP exception classes. *)

Inductive Details : Type :=
  | NoDetails
  | AvailableServers (names : list string)   (* [{ availableServers }] *)
  | CachedError (e : option string).         (* [serverStatus?.error] *)

Record Meta : Type := mkMeta {
  requestId : string;
  timestamp : Z;
  executionTime : option Z;
  meta_serverName : option string;
  meta_toolName : option string
}.

(** The object given to an exception constructor:
    [{ success: false, error: { code, message, details }, meta }]. *)
Record ErrorBody : Type := mkErrorBody {
  code : string;
  message : string;
  details : Details;
  error_meta : option Meta
}.

Inductive HttpException : Type :=
  | BadRequestException (body : ErrorBody)
  | NotFoundException (body : ErrorBody)
  | ServiceUnavailableException (body : ErrorBody)
  | InternalServerErrorException (body : ErrorBody).

(** The HTTP status NestJS gives to each exception class. *)
Definition http_status (e : HttpException) : Z :=
  match e with
  | BadRequestException _ => 400
  | NotFoundException _ => 404
  | ServiceUnavailableException _ => 503
  | InternalServerErrorException _ => 500
  end.

Definition body_of (e : HttpException) : ErrorBody :=
  match e with
  | BadRequestException b | NotFoundException b
  | ServiceUnavailableException b | InternalServerErrorException b => b
  end.

(** How a controller method ends: with a reply, with an exception it built
    itself, or by throwing on a value it caught ([throw error]), of which
    the class and the message are known. *)
Inductive Reply (A : Type) : Type :=
  | Replied (value : A)
  | Raised (e : HttpException)
  | Rethrown (cls : HttpClass) (message : string).
Arguments Replied {A} value.
Arguments Raised {A} e.
Arguments Rethrown {A} cls message.

(** The HTTP status of the three classes the catch block lets through. *)
Definition class_status (cls : HttpClass) : Z :=
  match cls with
  | IsBadRequest => 400
  | IsNotFound => 404
  | IsServiceUnavailable => 503
  end.

(** The clock readings of one request: [Date.now()] at the start and at the
    end of the controller method, the two readings of the registry's
    executeTool, and the [new Date()] put in [meta.timestamp]. *)
Record Times : Type := mkTimes {
  ctl_start : Z;
  reg_start : Z;
  reg_end : Z;
  ctl_end : Z;
  stamp : Z
}.

Section Dispatcher.

Context {HState Params Result : Type}.
Variable impl : Ref -> @IMCPServer HState Params Result.

(** The [description] field of the handle objects. *)
Variable description_of : Ref -> string.

(** The object returned by GatewayService.getServerTools. *)
Record ServerTools : Type := mkServerTools {
  st_serverName : string;
  st_version : string;
  st_tools : list string;
  st_description : string
}.

(** GatewayService.getServerTools (gateway.service.ts, lines 79-92) *)
Definition getServerTools (serverName : string) (reg : Registry)
    : Completion ServerTools :=
  match getServer serverName reg with
  | Throw msg => Throw msg
  | Return server =>
      Return {| st_serverName := serverName;
                st_version := version (impl server);
                st_tools := tools (impl server);
                st_description := description_of server |}
  end.

(** GatewayController.getServerTools *)
Definition controller_getServerTools (serverName : string) (reg : Registry)
    : Reply ServerTools :=
  if String.eqb serverName "" then
    Raised (BadRequestException
              {| code := "INVALID_PARAMETER";
                 message := "服务名称不能为空";
                 details := NoDetails;
                 error_meta := None |})
  else
    match getServerTools serverName reg with
    | Return serverTools => Replied serverTools
    | Throw msg =>
        if includes msg "未找到" then
          Raised (NotFoundException
                    {| code := "SERVER_NOT_FOUND";
                       message := "MCP服务 '" +:+ serverName +:+ "' 未找到";
                       details := AvailableServers (getServerNames reg);
                       error_meta := None |})
        else
          Raised (InternalServerErrorException
                    {| code := "LIST_TOOLS_FAILED";
                       message := msg;
                       details := NoDetails;
                       error_meta := None |})
    end.

(** The body of a successful executeTool reply:
    [{ success: true, data, meta }]. *)
Record ExecuteReply : Type := mkExecuteReply {
  data : Result;
  meta : Meta
}.

(** The class of the value that ServerRegistry.executeTool throws, which
    GatewayService.executeTool passes on untouched.  The registry's own two
    errors (unknown name, handle reporting offline) are plain [Error]
    objects; any other thrown value is the one the handle rejected with. *)
Definition thrown_class (serverName toolName : string) (params : Params)
    (reg : Registry) (w : World) : option HttpClass :=
  match getServer serverName reg with
  | Throw _ => None
  | Return server =>
      if online (status_of impl w server) then
        rejection_class (impl server) toolName params (objs w server)
      else None
  end.

(** GatewayController.executeTool.  [requestIdHeader] is the x-request-id
    header, [uuid] the value [uuidv4()] would give.  The catch block
    throws on what it caught when that is a BadRequestException, a
    NotFoundException or a ServiceUnavailableException, whoever built it,
    and wraps anything else in a 500. *)
Definition controller_executeTool (serverName toolName : string)
    (params : Params) (requestIdHeader : option string) (uuid : string)
    (tm : Times) (reg : Registry) (w : World)
    : Reply ExecuteReply * Registry * World :=
  let startTime := ctl_start tm in
  let requestId := or_default requestIdHeader uuid in
  if String.eqb serverName "" || String.eqb toolName "" then
    (Raised (BadRequestException
               {| code := "INVALID_PARAMETERS";
                  message := "服务名称和工具名称不能为空";
                  details := NoDetails;
                  error_meta :=
                    Some {| requestId := requestId; timestamp := stamp tm;
                            executionTime := None;
                            meta_serverName := None;
                            meta_toolName := None |} |}),
     reg, w)
  else if negb (hasServer serverName reg) then
    (Raised (NotFoundException
               {| code := "SERVER_NOT_FOUND";
                  message := "MCP服务 '" +:+ serverName +:+ "' 未找到";
                  details := AvailableServers (getServerNames reg);
                  error_meta :=
                    Some {| requestId := requestId; timestamp := stamp tm;
                            executionTime := None;
                            meta_serverName := Some serverName;
                            meta_toolName := Some toolName |} |}),
     reg, w)
  else
    let serverStatus := getServerStatus serverName reg in
    if negb (match serverStatus with
             | Some status => online status
             | None => false
             end)
    then
      (Raised (ServiceUnavailableException
                 {| code := "SERVER_OFFLINE";
                    message := "MCP服务 '" +:+ serverName +:+ "' 当前不可用";
                    details :=
                      CachedError (match serverStatus with
                                   | Some status => error status
                                   | None => None
                                   end);
                    error_meta :=
                      Some {| requestId := requestId; timestamp := stamp tm;
                              executionTime := None;
                              meta_serverName := Some serverName;
                              meta_toolName := Some toolName |} |}),
       reg, w)
    else
      let '(result, reg', w') :=
        executeTool_op impl serverName toolName params
          (reg_start tm) (reg_end tm) reg w in
      let executionTime := ctl_end tm - startTime in
      match result with
      | Return r =>
          (Replied
             {| data := r;
                meta := {| requestId := requestId; timestamp := stamp tm;
                           executionTime := Some executionTime;
                           meta_serverName := Some serverName;
                           meta_toolName := Some toolName |} |},
           reg', w')
      | Throw msg =>
          match thrown_class serverName toolName params reg w with
          | Some cls => (Rethrown cls msg, reg', w')
          | None =>
              (Raised (InternalServerErrorException
                         {| code := "EXECUTION_ERROR";
                            message := msg;
                            details := NoDetails;
                            error_meta :=
                              Some {| requestId := requestId;
                                      timestamp := stamp tm;
                                      executionTime := Some executionTime;
                                      meta_serverName := Some serverName;
                                      meta_toolName := Some toolName |} |}),
               reg', w')
          end
      end.

End Dispatcher.

(** ** ApiKeyGuard (common/guards/api-key.guard.ts) *)

(** [a === b] on optional strings. *)
Definition strict_eq (a b : option string) : bool :=
  match a, b with
  | Some x, Some y => String.eqb x y
  | None, None => true
  | _, _ => false
  end.

Inductive GuardResult : Type :=
  | Activated                            (* [return true] *)
  | Unauthorized (code message : string). (* UnauthorizedException *)

(** canActivate: [apiKey] is the configured key ([app.apiKey]),
    [requestApiKey] the x-api-key header. *)
Definition canActivate (apiKey requestApiKey : option string) : GuardResult :=
  if negb (truthy apiKey) then Activated
  else if negb (truthy requestApiKey) || negb (strict_eq requestApiKey apiKey)
  then Unauthorized "INVALID_API_KEY" "API Key 无效或缺失"
  else Activated.

(** ** authMiddleware (Express middleware, middleware/auth) *)

Record User : Type := mkUser {
  user_id : string;
  user_apiKey : string
}.

Inductive AuthResult : Type :=
  | Next (user : option User)   (* [next()]; [Some u] when [req.user] is set *)
  | Respond401 (code : string). (* [res.status(401).json(...)], no [next()] *)

Definition skipAuthPaths : list string := ["/health"; "/api"].

Definition authMiddleware (path : string) (apiKey apiSecret : option string)
    (validApiKey validApiSecret : option string) : AuthResult :=
  if existsb (fun p => String.eqb path p || String.prefix p path) skipAuthPaths
  then Next None
  else if negb (truthy validApiKey) && negb (truthy validApiSecret)
  then Next None
  else if truthy validApiKey && negb (strict_eq apiKey validApiKey)
  then Respond401 "INVALID_API_KEY"
  else if truthy validApiSecret && negb (strict_eq apiSecret validApiSecret)
  then Respond401 "INVALID_API_SECRET"
  else Next (Some {| user_id := "user_" +:+ or_default apiKey "anonymous";
                     user_apiKey := or_default apiKey "anonymous" |}).

(** ** validateRequest (Express middleware, middleware/validation)

    The Joi schema is a parameter: [validate body] is the [error] of
    [schema.validate(req.body)], [None] when the body is accepted. *)

Record Validated (E : Type) : Type := mkValidated {
  sent_400 : option E;   (* the 400 VALIDATION_ERROR response, if sent *)
  next_called : bool
}.
Arguments mkValidated {E} sent_400 next_called.
Arguments sent_400 {E} v.
Arguments next_called {E} v.

Definition validateRequest {Body E : Type} (validate : Body -> option E)
    (method : string) (body : Body) : Validated E :=
  if negb (String.eqb method "POST") then
    {| sent_400 := None; next_called := true |}       (* [return next()] *)
  else
    match validate body with
    | Some e => {| sent_400 := Some e; next_called := true |}
    | None => {| sent_400 := None; next_called := true |}
    end.

(** ** HttpExceptionFilter (common/filters/http-exception.filter.ts) *)

(** A JavaScript value as far as [||] and the filter can tell: falsy, a
    string, or some other truthy value. *)
Inductive JsValue (X : Type) : Type :=
  | JsFalsy
  | JsString (s : string)
  | JsOther (v : X).
Arguments JsFalsy {X}.
Arguments JsString {X} s.
Arguments JsOther {X} v.

(** [a || b] *)
Definition js_or {X : Type} (a b : JsValue X) : JsValue X :=
  match a with
  | JsFalsy => b
  | JsString s => if String.eqb s "" then b else a
  | JsOther _ => a
  end.

(** What [exception.getResponse()] gives. *)
Inductive ExceptionResponse (X : Type) : Type :=
  | ResponseString (s : string)
  | ResponseObject (r_message r_error r_code : JsValue X).
Arguments ResponseString {X} s.
Arguments ResponseObject {X} r_message r_error r_code.

(** The [exception: unknown] handed to the filter. *)
Inductive Caught (X : Type) : Type :=
  | CaughtHttp (status : Z) (response : ExceptionResponse X)
  | CaughtError (msg : string)
  | CaughtOther.
Arguments CaughtHttp {X} status response.
Arguments CaughtError {X} msg.
Arguments CaughtOther {X}.

(** getErrorCodeFromStatus *)
Definition getErrorCodeFromStatus (status : Z) : string :=
  if status =? 400 then "BAD_REQUEST"
  else if status =? 401 then "UNAUTHORIZED"
  else if status =? 403 then "FORBIDDEN"
  else if status =? 404 then "NOT_FOUND"
  else if status =? 429 then "RATE_LIMIT_EXCEEDED"
  else if status =? 500 then "INTERNAL_ERROR"
  else if status =? 503 then "SERVICE_UNAVAILABLE"
  else "UNKNOWN_ERROR".

(** The part of the response the filter computes: the status and
    [error.code], [error.message]. *)
Record Filtered (X : Type) : Type := mkFiltered {
  f_status : Z;
  f_code : JsValue X;
  f_message : JsValue X
}.
Arguments mkFiltered {X} f_status f_code f_message.
Arguments f_status {X} f.
Arguments f_code {X} f.
Arguments f_message {X} f.

(** catch *)
Definition filter_catch {X : Type} (exception : Caught X) : Filtered X :=
  let status := 500 in
  let message := JsString "Internal server error" in
  let code := JsString "INTERNAL_ERROR" in
  match exception with
  | CaughtHttp status' (ResponseString s) =>
      {| f_status := status'; f_code := code; f_message := JsString s |}
  | CaughtHttp status' (ResponseObject r_message r_error r_code) =>
      {| f_status := status';
         f_code := js_or r_code (JsString (getErrorCodeFromStatus status'));
         f_message := js_or r_message (js_or r_error message) |}
  | CaughtError msg =>
      {| f_status := status; f_code := code; f_message := JsString msg |}
  | CaughtOther =>
      {| f_status := status; f_code := code; f_message := message |}
  end.

(** What the filter receives when the controller (or the guard) throws one
    of its exceptions: NestJS keeps the object given to the constructor as
    the response, [{ success, error: { code, message, details }, meta }].
    That object has no [message] and no [code] property of its own, and its
    [error] property is an object. *)
Definition caught_of (e : HttpException) : Caught ErrorBody :=
  CaughtHttp (http_status e)
    (ResponseObject JsFalsy (JsOther (body_of e)) JsFalsy).

(** ** BaziServer: parameter validation and the pairing scores *)

Module BaziTools.

(** BaziParams as received: any field may be missing. *)
Record BaziParams : Type := mkBaziParams {
  birthDate : option string;
  gender : option string;
  calendarType : option string
}.

(** [new Date('1900-01-01').getTime()] *)
Definition minDate : Z := -2208988800000.

(** validateBaziParams.  [parse s] is [new Date(s).getTime()], [None] for
    NaN; [now] is [new Date().getTime()]. *)
Definition validateBaziParams (parse : string -> option Z) (now : Z)
    (params : BaziParams) : Completion unit :=
  if negb (truthy (birthDate params)) then Throw "出生日期不能为空"
  else if negb (truthy (gender params))
          || negb (existsb (fun g => strict_eq (gender params) (Some g))
                     ["male"; "female"])
  then Throw "性别参数无效，必须为 male 或 female"
  else if negb (truthy (calendarType params))
          || negb (existsb (fun c => strict_eq (calendarType params) (Some c))
                     ["solar"; "lunar"])
  then Throw "历法类型参数无效，必须为 solar 或 lunar"
  else
    match parse (or_default (birthDate params) "") with
    | None => Throw "出生日期格式无效"
    | Some t =>
        if t >? now then Throw "出生日期不能是未来时间"
        else if t <? minDate
        then Throw "出生日期过早，请提供1900年之后的日期"
        else Return tt
    end.

Definition five_elements : list string := ["金"; "木"; "水"; "火"; "土"].

(** [distribution[element] || 0] *)
Definition count_of (distribution : string -> option Z) (element : string) : Z :=
  match distribution element with
  | Some n => n
  | None => 0
  end.

(** The callback of the [forEach] in calculateElementCompatibility. *)
Definition add_common (d1 d2 : string -> option Z) (score : Z)
    (element : string) : Z :=
  let count1 := count_of d1 element in
  let count2 := count_of d2 element in
  if (count1 >? 0) && (count2 >? 0) then score + 10 else score.

(** calculateElementCompatibility *)
Definition calculateElementCompatibility (d1 d2 : string -> option Z) : Z :=
  let score := fold_left (add_common d1 d2) five_elements 50 in
  Z.min score 100.

(** The object returned by calculateCompatibility. *)
Record Compatibility : Type := mkCompatibility {
  overall : Z;
  aspect_element : Z;
  aspect_character : Z;
  aspect_life : Z;
  suggestions : list string;
  conclusion : string
}.

(** calculateCompatibility; [u1], [u2], [u3] are the three values of
    [Math.random()] in evaluation order. *)
Definition calculateCompatibility (d1 d2 : string -> option Z)
    (u1 u2 u3 : Random) : Compatibility :=
  let elementScore := calculateElementCompatibility d1 d2 in
  let overallScore := Z.of_nat (random_index u1 30) + 70 in
  {| overall := overallScore;
     aspect_element := elementScore;
     aspect_character := Z.of_nat (random_index u2 20) + 80;
     aspect_life := Z.of_nat (random_index u3 25) + 75;
     suggestions := ["整体配对良好，建议多沟通交流";
                     "在性格方面需要相互包容";
                     "生活习惯需要适当调整"];
     conclusion := if overallScore >=? 85 then "天作之合，非常匹配"
                   else if overallScore >=? 75 then "比较匹配，有发展潜力"
                   else "一般匹配，需要努力经营" |}.

(** The [switch] of BaziServer.executeTool: [bodies] are the four tool
    methods, any other name throws. *)
Definition bazi_switch {Params Result : Type}
    (bodies : string -> Params -> Completion Result)
    (toolName : string) (params : Params) : Completion Result :=
  if existsb (String.eqb toolName)
       ["getBaziDetail"; "getBaziFortune"; "getCompatibility"; "getLuckyInfo"]
  then bodies toolName params
  else Throw ("工具 '" +:+ toolName +:+ "' 在八字服务中不存在").

End BaziTools.

(** * Facts *)

(** ** JavaScript Map *)

Section JsMapFacts.

Context {V : Type}.
Implicit Types (m : JsMap.t V) (k : string) (v : V).

Lemma JsMap_get_set_eq k v m : JsMap.get k (JsMap.set k v m) = Some v.
Proof.
  induction m as [|[k' v'] m IH]; simpl.
  - by rewrite String.eqb_refl.
  - destruct (String.eqb_spec k' k) as [->|Hne]; simpl.
    + by rewrite String.eqb_refl.
    + destruct (String.eqb_spec k' k); [done|]. exact IH.
Qed.

Lemma JsMap_get_set_ne k k' v m :
  k ≠ k' → JsMap.get k' (JsMap.set k v m) = JsMap.get k' m.
Proof.
  intros Hne. induction m as [|[k0 v0] m IH]; simpl.
  - destruct (String.eqb_spec k k'); [done|done].
  - destruct (String.eqb_spec k0 k) as [->|Hk]; simpl.
    + destruct (String.eqb_spec k k'); [done|done].
    + destruct (String.eqb_spec k0 k'); [done|]. exact IH.
Qed.

Lemma JsMap_get_keys k m : is_Some (JsMap.get k m) ↔ k ∈ JsMap.keys m.
Proof.
  unfold JsMap.keys. induction m as [|[k' v'] m IH]; simpl.
  - split; [intros [? ?]; done | intros H; inversion H].
  - destruct (String.eqb_spec k' k) as [->|Hne].
    + split; [intros _; left | intros _; eauto].
    + rewrite IH. split; [intros ?; by right |].
      intros H. apply elem_of_cons in H as [?|?]; [congruence | done].
Qed.

Lemma JsMap_keys_set_present k v m :
  is_Some (JsMap.get k m) → JsMap.keys (JsMap.set k v m) = JsMap.keys m.
Proof.
  unfold JsMap.keys. induction m as [|[k' v'] m IH]; simpl.
  - intros [? ?]; done.
  - destruct (String.eqb_spec k' k) as [->|Hne]; simpl; [done|].
    intros H. by rewrite IH.
Qed.

End JsMapFacts.

Lemma JsMap_keys_set {V1 V2 : Type} k (v1 : V1) (v2 : V2) m1 m2 :
  JsMap.keys m1 = JsMap.keys m2 →
  JsMap.keys (JsMap.set k v1 m1) = JsMap.keys (JsMap.set k v2 m2).
Proof.
  unfold JsMap.keys. revert m2.
  induction m1 as [|[k1 x1] m1 IH]; intros [|[k2 x2] m2]; simpl; try done.
  intros [= -> Hrest].
  destruct (String.eqb_spec k2 k); simpl; [by rewrite Hrest|].
  f_equal. by apply IH.
Qed.

Lemma JsMap_keys_delete {V1 V2 : Type} k (m1 : JsMap.t V1) (m2 : JsMap.t V2) :
  JsMap.keys m1 = JsMap.keys m2 →
  JsMap.keys (JsMap.delete k m1) = JsMap.keys (JsMap.delete k m2).
Proof.
  unfold JsMap.keys. revert m2.
  induction m1 as [|[k1 x1] m1 IH]; intros [|[k2 x2] m2]; simpl; try done.
  intros [= -> Hrest].
  destruct (String.eqb_spec k2 k); simpl; [done|].
  f_equal. by apply IH.
Qed.

Lemma JsMap_get_same_keys {V1 V2 : Type} k (m1 : JsMap.t V1) (m2 : JsMap.t V2) :
  JsMap.keys m1 = JsMap.keys m2 →
  is_Some (JsMap.get k m1) → is_Some (JsMap.get k m2).
Proof. intros Hk. rewrite !JsMap_get_keys. by rewrite Hk. Qed.

Section JsMapNoDup.

Context {V : Type}.
Implicit Types (m : JsMap.t V) (k : string) (v : V).

Lemma JsMap_keys_set_absent k v m :
  JsMap.get k m = None → JsMap.keys (JsMap.set k v m) = JsMap.keys m ++ [k].
Proof.
  unfold JsMap.keys. induction m as [|[k' v'] m IH]; simpl; [done|].
  destruct (String.eqb_spec k' k); [done|]. intros H. simpl. by rewrite IH.
Qed.

Lemma JsMap_keys_set_NoDup k v m :
  NoDup (JsMap.keys m) → NoDup (JsMap.keys (JsMap.set k v m)).
Proof.
  intros Hnd. destruct (JsMap.get k m) as [x|] eqn:Hget.
  - by rewrite JsMap_keys_set_present.
  - rewrite JsMap_keys_set_absent by done.
    apply NoDup_app. split; [done|]. split; [|apply NoDup_singleton].
    intros k' Hin Hk. apply list_elem_of_singleton in Hk as ->.
    apply JsMap_get_keys in Hin as [? ?]. congruence.
Qed.

Lemma JsMap_keys_delete_subseteq k k' m :
  k' ∈ JsMap.keys (JsMap.delete k m) → k' ∈ JsMap.keys m.
Proof.
  unfold JsMap.keys. induction m as [|[k0 v0] m IH]; simpl; [done|].
  destruct (String.eqb_spec k0 k); simpl.
  - intros ?. by right.
  - intros H. apply elem_of_cons in H as [->|?]; [left | right; auto].
Qed.

Lemma JsMap_keys_delete_NoDup k m :
  NoDup (JsMap.keys m) → NoDup (JsMap.keys (JsMap.delete k m)).
Proof.
  unfold JsMap.keys. induction m as [|[k0 v0] m IH]; simpl; [done|].
  intros Hnd. apply NoDup_cons in Hnd as [Hnotin Hnd].
  destruct (String.eqb_spec k0 k); simpl; [done|].
  apply NoDup_cons. split; [|auto].
  intros Hin. apply Hnotin. by eapply JsMap_keys_delete_subseteq.
Qed.

Lemma JsMap_get_delete_eq k m :
  NoDup (JsMap.keys m) → JsMap.get k (JsMap.delete k m) = None.
Proof.
  unfold JsMap.keys. induction m as [|[k0 v0] m IH]; simpl; [done|].
  intros Hnd. apply NoDup_cons in Hnd as [Hnotin Hnd].
  destruct (String.eqb_spec k0 k) as [->|Hne]; simpl.
  - destruct (JsMap.get k m) eqn:Hget; [|done].
    exfalso. apply Hnotin. apply JsMap_get_keys. by rewrite Hget.
  - destruct (String.eqb_spec k0 k); [done|]. auto.
Qed.

Lemma JsMap_get_delete_ne k k' m :
  k ≠ k' → JsMap.get k' (JsMap.delete k m) = JsMap.get k' m.
Proof.
  intros Hne. induction m as [|[k0 v0] m IH]; simpl; [done|].
  destruct (String.eqb_spec k0 k) as [->|Hk]; simpl.
  - destruct (String.eqb_spec k k'); [done|done].
  - destruct (String.eqb_spec k0 k'); [done|]. exact IH.
Qed.

Lemma JsMap_get_entry k v m :
  NoDup (JsMap.keys m) → (k, v) ∈ JsMap.entries m → JsMap.get k m = Some v.
Proof.
  unfold JsMap.keys, JsMap.entries.
  induction m as [|[k0 v0] m IH]; simpl; [by intros _ ?%elem_of_nil|].
  intros Hnd Hin. apply NoDup_cons in Hnd as [Hnotin Hnd].
  apply elem_of_cons in Hin as [[= -> ->]|Hin].
  - by rewrite String.eqb_refl.
  - destruct (String.eqb_spec k0 k) as [->|Hne]; [|auto].
    exfalso. apply Hnotin. apply list_elem_of_fmap. by exists (k, v).
Qed.

End JsMapNoDup.

(** ** The registry *)

Section RegistryFacts.

Context {HState Params Result : Type}.
Variable impl : Ref -> @IMCPServer HState Params Result.

Implicit Types (reg : @Registry) (w : @World HState Params Result).
Implicit Types (name toolName : string) (server : Ref).

Lemma getServerStatus_update_eq name status reg :
  getServerStatus name (updateServerStatus name status reg) = Some status.
Proof. apply JsMap_get_set_eq. Qed.

Lemma getServerStatus_update_ne name name' status reg :
  name ≠ name' →
  getServerStatus name' (updateServerStatus name status reg)
  = getServerStatus name' reg.
Proof. apply JsMap_get_set_ne. Qed.

Lemma updateServerStatus_keys name status reg :
  is_Some (JsMap.get name (serverStatuses reg)) →
  JsMap.keys (serverStatuses (updateServerStatus name status reg))
  = JsMap.keys (serverStatuses reg).
Proof. apply JsMap_keys_set_present. Qed.

(** What a call of executeTool computes, branch by branch. *)
Lemma executeTool_op_unknown name toolName params t0 t1 reg w :
  JsMap.get name (servers reg) = None →
  executeTool_op impl name toolName params t0 t1 reg w
  = (Throw (msg_not_found name (getServerNames reg)), reg, w).
Proof.
  intros Hget. unfold executeTool_op, executeTool_begin, getServer.
  by rewrite Hget.
Qed.

Lemma executeTool_op_offline name toolName params t0 t1 reg w server :
  JsMap.get name (servers reg) = Some server →
  online (status_of impl w server) = false →
  executeTool_op impl name toolName params t0 t1 reg w
  = (Throw (msg_unavailable name),
     updateServerStatus name
       (with_offline_error (status_of impl w server) (msg_unavailable name))
       reg,
     w).
Proof.
  intros Hget Hoff. unfold executeTool_op, executeTool_begin, getServer.
  by rewrite Hget, Hoff.
Qed.

Lemma executeTool_op_online name toolName params t0 t1 reg w server :
  JsMap.get name (servers reg) = Some server →
  online (status_of impl w server) = true →
  executeTool_op impl name toolName params t0 t1 reg w
  = let '(outcome, w') := invoke_executeTool impl w server toolName params in
    match outcome with
    | Return result =>
        (Return result,
         updateServerStatus name
           (with_responseTime
              (held_status (impl server) (objs w server) (objs w' server))
              (t1 - t0)) reg,
         w')
    | Throw msg =>
        (Throw msg,
         updateServerStatus name
           (with_offline_error (status_of impl w' server) msg) reg,
         w')
    end.
Proof.
  intros Hget Hon. unfold executeTool_op, executeTool_begin, getServer.
  rewrite Hget, Hon. simpl.
  destruct (invoke_executeTool impl w server toolName params) as [outcome w'].
  unfold executeTool_resume. simpl. by destruct outcome.
Qed.

(** Whenever a call on a registered service throws, the cache holds the
    handle's current status with [online] cleared and the message. *)
Lemma executeTool_op_throw_status name toolName params t0 t1 reg w server
    msg reg' w' :
  JsMap.get name (servers reg) = Some server →
  executeTool_op impl name toolName params t0 t1 reg w = (Throw msg, reg', w') →
  getServerStatus name reg'
  = Some (with_offline_error (status_of impl w' server) msg).
Proof.
  intros Hget Hrun.
  destruct (online (status_of impl w server)) eqn:Hon.
  - rewrite (executeTool_op_online _ _ _ _ _ _ _ _ Hget Hon) in Hrun.
    destruct (invoke_executeTool impl w server toolName params) as [o w1].
    destruct o; simplify_eq. apply getServerStatus_update_eq.
  - rewrite (executeTool_op_offline _ _ _ _ _ _ _ _ Hget Hon) in Hrun.
    simplify_eq. apply getServerStatus_update_eq.
Qed.

Lemma executeTool_op_return_status name toolName params t0 t1 reg w server
    result reg' w' :
  JsMap.get name (servers reg) = Some server →
  executeTool_op impl name toolName params t0 t1 reg w
  = (Return result, reg', w') →
  online (status_of impl w server) = true ∧
  getServerStatus name reg'
  = Some (with_responseTime
            (held_status (impl server) (objs w server) (objs w' server))
            (t1 - t0)).
Proof.
  intros Hget Hrun.
  destruct (online (status_of impl w server)) eqn:Hon.
  - rewrite (executeTool_op_online _ _ _ _ _ _ _ _ Hget Hon) in Hrun.
    destruct (invoke_executeTool impl w server toolName params) as [o w1].
    destruct o; simplify_eq. split; [done|]. apply getServerStatus_update_eq.
  - rewrite (executeTool_op_offline _ _ _ _ _ _ _ _ Hget Hon) in Hrun.
    simplify_eq.
Qed.

(** A call touches no entry but the one it names, and no handle map. *)
Lemma executeTool_op_frame name toolName params t0 t1 reg w :
  let '(_, reg', _) := executeTool_op impl name toolName params t0 t1 reg w in
  servers reg' = servers reg ∧
  (∀ name', name ≠ name' →
     getServerStatus name' reg' = getServerStatus name' reg) ∧
  (JsMap.keys (servers reg) = JsMap.keys (serverStatuses reg) →
   JsMap.keys (serverStatuses reg') = JsMap.keys (serverStatuses reg)).
Proof.
  destruct (JsMap.get name (servers reg)) as [server|] eqn:Hget.
  - assert (Hkeys : JsMap.keys (servers reg) = JsMap.keys (serverStatuses reg) →
                    is_Some (JsMap.get name (serverStatuses reg))).
    { intros Hk. eapply JsMap_get_same_keys; [exact Hk | by rewrite Hget]. }
    destruct (online (status_of impl w server)) eqn:Hon.
    + rewrite (executeTool_op_online _ _ _ _ _ _ _ _ Hget Hon).
      destruct (invoke_executeTool impl w server toolName params) as [o w1].
      destruct o; (split; [done|]; split;
        [intros; by apply getServerStatus_update_ne
        |intros; by apply updateServerStatus_keys; auto]).
    + rewrite (executeTool_op_offline _ _ _ _ _ _ _ _ Hget Hon).
      split; [done|]. split;
        [intros; by apply getServerStatus_update_ne
        |intros; by apply updateServerStatus_keys; auto].
  - rewrite (executeTool_op_unknown _ _ _ _ _ _ _ Hget). done.
Qed.

(** *** Health probes *)

Lemma probe_entry_spec now reg w name server :
  let outcome := (healthCheck (impl server) (objs w server)).1 in
  let '(reg', w') := probe_entry impl now (reg, w) (name, server) in
  servers reg' = servers reg ∧
  JsMap.keys (serverStatuses reg') = JsMap.keys (serverStatuses reg) ∧
  (∀ name', name ≠ name' →
     getServerStatus name' reg' = getServerStatus name' reg) ∧
  calls w' = calls w ++ [CallHealthCheck server outcome] ∧
  getServerStatus name reg'
  = (λ cur, probed_status cur outcome (now name)) <$> getServerStatus name reg.
Proof.
  unfold probe_entry, invoke_healthCheck, getServerStatus. simpl.
  destruct (healthCheck (impl server) (objs w server)) as [outcome s'].
  simpl. destruct (JsMap.get name (serverStatuses reg)) as [cur|] eqn:Hget.
  - split; [done|]. split.
    { apply updateServerStatus_keys. by rewrite Hget. }
    split; [intros; by apply JsMap_get_set_ne|]. split; [done|].
    simpl. apply JsMap_get_set_eq.
  - rewrite Hget. done.
Qed.

Lemma probe_entries_frame now es : ∀ reg w,
  let '(reg', w') := fold_left (probe_entry impl now) es (reg, w) in
  servers reg' = servers reg ∧
  JsMap.keys (serverStatuses reg') = JsMap.keys (serverStatuses reg) ∧
  (∀ name', name' ∉ es.*1 →
     getServerStatus name' reg' = getServerStatus name' reg) ∧
  ∃ new, calls w' = calls w ++ new ∧
         Forall2 (λ e c, ∃ o, c = CallHealthCheck e.2 o) es new.
Proof.
  induction es as [|[name server] es IH]; intros reg w; cbn [fold_left].
  - repeat split; try done. exists []. by rewrite app_nil_r.
  - pose proof (probe_entry_spec now reg w name server) as Hone.
    destruct (probe_entry impl now (reg, w) (name, server)) as [reg1 w1].
    destruct Hone as (Hs1 & Hk1 & Hne1 & Hc1 & _).
    specialize (IH reg1 w1).
    destruct (fold_left (probe_entry impl now) es (reg1, w1)) as [reg' w'].
    destruct IH as (Hs & Hk & Hne & new & Hc & Hall).
    split; [congruence|]. split; [congruence|]. split.
    + intros name' Hnotin. rewrite fmap_cons in Hnotin.
      apply not_elem_of_cons in Hnotin as [? ?].
      rewrite Hne by done. by apply Hne1.
    + eexists (_ :: new). split.
      * rewrite Hc, Hc1, <-app_assoc. done.
      * constructor; [by eexists | done].
Qed.


(** *** Well-formedness is kept by every operation that runs alone *)

Lemma register_well_formed name server w reg :
  well_formed reg → well_formed (register impl name server w reg).
Proof.
  intros [Hnd Hk]. split; simpl.
  - by apply JsMap_keys_set_NoDup.
  - by apply JsMap_keys_set.
Qed.

Lemma unregister_well_formed name reg :
  well_formed reg → well_formed (unregister name reg).
Proof.
  intros [Hnd Hk]. unfold unregister.
  destruct (JsMap.has name (servers reg)); [|done]. split; simpl.
  - by apply JsMap_keys_delete_NoDup.
  - by apply JsMap_keys_delete.
Qed.

Lemma step_well_formed reg w op :
  serial op = true →
  well_formed reg → well_formed (step impl (reg, w) op).1.
Proof.
  intros Hserial Hwf.
  destruct op as [name server|name|name tool params t0 t1|now
                 |name tool params t0|k t1]; simpl; try discriminate.
  - by apply register_well_formed.
  - by apply unregister_well_formed.
  - pose proof (executeTool_op_frame name tool params t0 t1 reg w) as H.
    destruct (executeTool_op impl name tool params t0 t1 reg w)
      as [[result reg'] w'].
    destruct H as (Hs & _ & Hk). destruct Hwf as [Hnd Hagree]. simpl.
    split; [by rewrite Hs | rewrite Hs, Hk; done].
  - unfold performHealthCheck, JsMap.entries.
    pose proof (probe_entries_frame now (servers reg) reg w) as H.
    destruct (fold_left (probe_entry impl now) (servers reg) (reg, w))
      as [reg' w'].
    destruct H as (Hs & Hk & _). destruct Hwf as [Hnd Hagree]. simpl.
    split; [by rewrite Hs | rewrite Hs, Hk; done].
Qed.

Lemma run_well_formed ops : ∀ reg w,
  Forall (λ op, serial op = true) ops →
  well_formed reg → well_formed (run impl ops (reg, w)).1.
Proof.
  unfold run. induction ops as [|op ops IH]; intros reg w Hall Hwf;
    cbn [fold_left]; [done|].
  apply Forall_cons in Hall as [Hop Hall].
  pose proof (step_well_formed reg w op Hop Hwf) as H.
  destruct (step impl (reg, w) op) as [reg1 w1]. by apply IH.
Qed.

Lemma new_registry_well_formed : well_formed (@new_registry).
Proof. split; [constructor | done]. Qed.

(** *** What every operation keeps, suspended calls included

    Only register and unregister write the handle map, so its names stay
    unique; and a name in the handle map always has a cached status, since
    unregister is the one operation that removes a status. *)

Lemma JsMap_keys_set_elem {V : Type} k k' (v : V) (m : JsMap.t V) :
  k' ∈ JsMap.keys (JsMap.set k v m) ↔ k' = k ∨ k' ∈ JsMap.keys m.
Proof.
  rewrite <-!JsMap_get_keys. destruct (decide (k = k')) as [->|Hne].
  - rewrite JsMap_get_set_eq. split; [by left | by eauto].
  - rewrite JsMap_get_set_ne by done. split; [by right|].
    intros [->|?]; done.
Qed.

Lemma updateServerStatus_keys_subseteq name status reg :
  JsMap.keys (serverStatuses reg)
  ⊆ JsMap.keys (serverStatuses (updateServerStatus name status reg)).
Proof.
  intros k Hk. unfold updateServerStatus. simpl.
  apply JsMap_keys_set_elem. by right.
Qed.

Lemma executeTool_begin_frame name tool params t0 reg w :
  match (executeTool_begin impl name tool params t0 reg w).1 with
  | Finished _ reg' =>
      servers reg' = servers reg ∧
      JsMap.keys (serverStatuses reg) ⊆ JsMap.keys (serverStatuses reg') ∧
      (∀ name', name ≠ name' →
         getServerStatus name' reg' = getServerStatus name' reg)
  | Awaiting p => p_serverName p = name
  end.
Proof.
  unfold executeTool_begin.
  destruct (getServer name reg) as [server|msg]; simpl; [|done].
  destruct (online (status_of impl w server)); simpl.
  - by destruct (invoke_executeTool impl w server tool params).
  - split; [done|]. split; [apply updateServerStatus_keys_subseteq|].
    intros. by apply getServerStatus_update_ne.
Qed.



Lemma executeTool_resume_frame p t1 reg w :
  let reg' := (executeTool_resume impl p t1 reg w).2 in
  servers reg' = servers reg ∧
  JsMap.keys (serverStatuses reg) ⊆ JsMap.keys (serverStatuses reg') ∧
  (∀ name', p_serverName p ≠ name' →
     getServerStatus name' reg' = getServerStatus name' reg).
Proof.
  unfold executeTool_resume. destruct (p_outcome p); simpl;
    (split; [done|]; split; [apply updateServerStatus_keys_subseteq|];
     intros; by apply getServerStatus_update_ne).
Qed.

Lemma updateServerStatus_keys_NoDup name status reg :
  NoDup (JsMap.keys (serverStatuses reg)) →
  NoDup (JsMap.keys (serverStatuses (updateServerStatus name status reg))).
Proof. apply JsMap_keys_set_NoDup. Qed.

Lemma executeTool_begin_keys_NoDup name tool params t0 reg w result reg' w' :
  executeTool_begin impl name tool params t0 reg w
  = (Finished result reg', w') →
  NoDup (JsMap.keys (serverStatuses reg)) →
  NoDup (JsMap.keys (serverStatuses reg')).
Proof.
  unfold executeTool_begin.
  destruct (getServer name reg) as [server|msg]; [|by intros [= <- <- <-]].
  destruct (online (status_of impl w server)); simpl.
  - by destruct (invoke_executeTool impl w server tool params).
  - intros [= <- <- <-]. apply updateServerStatus_keys_NoDup.
Qed.

Lemma executeTool_resume_keys_NoDup p t1 reg w :
  NoDup (JsMap.keys (serverStatuses reg)) →
  NoDup (JsMap.keys (serverStatuses (executeTool_resume impl p t1 reg w).2)).
Proof.
  unfold executeTool_resume.
  destruct (p_outcome p); simpl; apply updateServerStatus_keys_NoDup.
Qed.

Lemma step_keeps_names reg w op :
  NoDup (JsMap.keys (servers reg)) →
  JsMap.keys (servers reg) ⊆ JsMap.keys (serverStatuses reg) →
  NoDup (JsMap.keys (serverStatuses reg)) →
  NoDup (JsMap.keys (servers (step impl (reg, w) op).1)) ∧
  JsMap.keys (servers (step impl (reg, w) op).1)
  ⊆ JsMap.keys (serverStatuses (step impl (reg, w) op).1) ∧
  NoDup (JsMap.keys (serverStatuses (step impl (reg, w) op).1)).
Proof.
  intros Hnd Hsub Hnd'.
  destruct op as [name server|name|name tool params t0 t1|now
                 |name tool params t0|k t1]; simpl.
  - split; [by apply JsMap_keys_set_NoDup|].
    split; [|by apply JsMap_keys_set_NoDup].
    intros k Hk. apply JsMap_keys_set_elem in Hk. apply JsMap_keys_set_elem.
    destruct Hk as [->|Hk]; [by left | right; by apply Hsub].
  - unfold unregister. destruct (JsMap.has name (servers reg)); [|done].
    simpl. split; [by apply JsMap_keys_delete_NoDup|].
    split; [|by apply JsMap_keys_delete_NoDup].
    intros k Hk. assert (name ≠ k) as Hne.
    { intros ->. apply JsMap_get_keys in Hk as [x Hx].
      by rewrite JsMap_get_delete_eq in Hx. }
    apply JsMap_keys_delete_subseteq, Hsub in Hk.
    apply JsMap_get_keys. rewrite JsMap_get_delete_ne by done.
    by apply JsMap_get_keys.
  - unfold executeTool_op.
    pose proof (executeTool_begin_frame name tool params t0 reg w) as Hb.
    destruct (executeTool_begin impl name tool params t0 reg w)
      as [[r reg1|p] w1] eqn:Hbegin; simpl in *.
    + destruct Hb as (Hs & Hk & _). rewrite Hs. split; [done|].
      split; [intros k ?; by apply Hk, Hsub|].
      by eapply executeTool_begin_keys_NoDup.
    + pose proof (executeTool_resume_frame p t1 reg w1) as Hr.
      pose proof (executeTool_resume_keys_NoDup p t1 reg w1 Hnd') as Hr'.
      destruct (executeTool_resume impl p t1 reg w1) as [r reg1].
      simpl in *. destruct Hr as (Hs & Hk & _). rewrite Hs. split; [done|].
      split; [intros k ?; by apply Hk, Hsub | done].
  - unfold performHealthCheck, JsMap.entries.
    pose proof (probe_entries_frame now (servers reg) reg w) as H.
    destruct (fold_left (probe_entry impl now) (servers reg) (reg, w))
      as [reg' w'].
    destruct H as (Hs & Hk & _). simpl. by rewrite Hs, Hk.
  - pose proof (executeTool_begin_frame name tool params t0 reg w) as Hb.
    destruct (executeTool_begin impl name tool params t0 reg w)
      as [[r reg1|p] w1] eqn:Hbegin; simpl in *; [|done].
    destruct Hb as (Hs & Hk & _). rewrite Hs. split; [done|].
    split; [intros k ?; by apply Hk, Hsub|].
    by eapply executeTool_begin_keys_NoDup.
  - destruct (pending w !! k) as [p|]; [|done].
    pose proof (executeTool_resume_frame p t1 reg (settle k w)) as Hr.
    pose proof (executeTool_resume_keys_NoDup p t1 reg (settle k w) Hnd')
      as Hr'.
    destruct (executeTool_resume impl p t1 reg (settle k w)) as [r reg1].
    simpl in *. destruct Hr as (Hs & Hk & _). rewrite Hs. split; [done|].
    split; [intros k' ?; by apply Hk, Hsub | done].
Qed.

Lemma run_keeps_names ops : ∀ reg w,
  NoDup (JsMap.keys (servers reg)) →
  JsMap.keys (servers reg) ⊆ JsMap.keys (serverStatuses reg) →
  NoDup (JsMap.keys (serverStatuses reg)) →
  NoDup (JsMap.keys (servers (run impl ops (reg, w)).1)) ∧
  JsMap.keys (servers (run impl ops (reg, w)).1)
  ⊆ JsMap.keys (serverStatuses (run impl ops (reg, w)).1) ∧
  NoDup (JsMap.keys (serverStatuses (run impl ops (reg, w)).1)).
Proof.
  unfold run. induction ops as [|op ops IH]; intros reg w Hnd Hsub Hnd';
    cbn [fold_left]; [done|].
  pose proof (step_keeps_names reg w op Hnd Hsub Hnd') as H.
  destruct (step impl (reg, w) op) as [reg1 w1]. simpl in H.
  destruct H as (Hnd1 & Hsub1 & Hnd1'). by apply IH.
Qed.

(** A call during whose [await] nothing runs is the suspended call resumed
    at once. *)
Lemma executeTool_op_is_begin_then_resume name tool params t0 t1 reg w :
  step impl (step impl (reg, w) (OpExecuteBegin name tool params t0))
    (OpExecuteResume (length (pending w)) t1)
  = step impl (reg, w) (OpExecuteTool name tool params t0 t1).
Proof.
  simpl. unfold executeTool_op.
  assert (Hp : pending (executeTool_begin impl name tool params t0 reg w).2
               = pending w).
  { unfold executeTool_begin. destruct (getServer name reg); [|done].
    destruct (online _); [|done]. simpl.
    unfold invoke_executeTool. by destruct (executeTool _ _ _ _). }
  destruct (executeTool_begin impl name tool params t0 reg w)
    as [[r reg1|p] w1]; simpl in *.
  - rewrite <-Hp. by rewrite lookup_ge_None_2.
  - rewrite <-Hp. rewrite lookup_app_r, Nat.sub_diag by done. simpl.
    assert (settle (length (pending w1)) (suspend p w1) = w1) as ->.
    { unfold settle, suspend. simpl. destruct w1 as [o c pd]. simpl. f_equal.
      clear. induction pd as [|x pd IH]; [done|]. simpl. by rewrite IH. }
    by destruct (executeTool_resume impl p t1 reg w1).
Qed.

(** *** executeTool *)

(** C1 (as the code has it).  For a registered name, executeTool reads the
    handle's own status through getStatus, not the cached one.  When that
    status is offline the call throws the fixed message naming the service
    and no handle is called (the store of handles and the call log are
    unchanged); otherwise the handle's executeTool is called once with the
    given operation and parameters, and the call completes as the handle
    does. *)
Theorem executeTool_consults_handle_status
    name toolName params t0 t1 reg w server :
  JsMap.get name (servers reg) = Some server →
  let '(result, _, w') :=
    executeTool_op impl name toolName params t0 t1 reg w in
  if online (status_of impl w server)
  then
    let outcome :=
      (executeTool (impl server) toolName params (objs w server)).1 in
    result = outcome ∧
    calls w' = calls w ++ [CallExecuteTool server toolName params outcome]
  else
    result = Throw (msg_unavailable name) ∧ w' = w.
Proof.
  intros Hget. destruct (online (status_of impl w server)) eqn:Hon.
  - rewrite (executeTool_op_online _ _ _ _ _ _ _ _ Hget Hon).
    unfold invoke_executeTool.
    destruct (executeTool (impl server) toolName params (objs w server))
      as [outcome s'].
    simpl. by destruct outcome.
  - by rewrite (executeTool_op_offline _ _ _ _ _ _ _ _ Hget Hon).
Qed.

(** C10.  When the handle of a registered service reports offline,
    executeTool throws the rejection message, calls no handle (the world,
    call log included, is the one before the call), and overwrites the
    cached status of the service with the handle's status, [online] set to
    false and [error] set to the rejection message. *)
Theorem executeTool_rejection_overwrites_cache
    name toolName params t0 t1 reg w server :
  JsMap.get name (servers reg) = Some server →
  online (status_of impl w server) = false →
  ∃ reg' cached,
    executeTool_op impl name toolName params t0 t1 reg w
    = (Throw (msg_unavailable name), reg', w) ∧
    getServerStatus name reg' = Some cached ∧
    online cached = false ∧
    error cached = Some (msg_unavailable name) ∧
    cached
    = with_offline_error (status_of impl w server) (msg_unavailable name).
Proof.
  intros Hget Hoff. eexists _, _.
  split; [by apply executeTool_op_offline|].
  split; [apply getServerStatus_update_eq|]. done.
Qed.


(** C4 (as the code has it).  executeTool neither increments nor
    decrements activeRequests, it copies a load.  After a call that returns
    the cached status carries the load found, once the call is over, in the
    status object the handle returned before the call (line 124, spread at
    line 134); after a call that throws, the load the handle reports just
    after it.  The cached counters therefore equal their value from before
    the call exactly when that load does. *)
Theorem executeTool_cached_load
    name toolName params t0 t1 reg w server cached result reg' w' :
  JsMap.get name (servers reg) = Some server →
  getServerStatus name reg = Some cached →
  executeTool_op impl name toolName params t0 t1 reg w = (result, reg', w') →
  let reported :=
    match result with
    | Return _ =>
        load (held_status (impl server) (objs w server) (objs w' server))
    | Throw _ => load (status_of impl w' server)
    end in
  ∃ cached',
    getServerStatus name reg' = Some cached' ∧
    load cached' = reported ∧
    (load cached' = load cached ↔ reported = load cached).
Proof.
  intros Hget Hcached Hrun. destruct result as [result|msg]; simpl.
  - destruct (executeTool_op_return_status _ _ _ _ _ _ _ _ _ _ _ Hget Hrun)
      as [_ ->].
    eexists. split; [done|]. simpl. done.
  - rewrite (executeTool_op_throw_status _ _ _ _ _ _ _ _ _ _ _ Hget Hrun).
    eexists. split; [done|]. simpl. done.
Qed.

(** *** The key sets of the two maps *)

(** While every operation runs alone (no executeTool is left suspended),
    the two maps have the same keys in the same order after every
    operation. *)
Lemma serial_key_sets_equal (ops : list (@Op Params)) (n : nat) (w0 : World) :
  Forall (λ op, serial op = true) ops →
  let reg := (run impl (take n ops) (new_registry, w0)).1 in
  JsMap.keys (servers reg) = JsMap.keys (serverStatuses reg) ∧
  ∀ name, JsMap.has name (servers reg) = JsMap.has name (serverStatuses reg).
Proof.
  intros Hall. simpl.
  assert (Forall (λ op, serial op = true) (take n ops)) as Htake
    by (by apply Forall_take).
  destruct (run_well_formed (take n ops) new_registry w0 Htake
              new_registry_well_formed) as [_ Hk].
  split; [done|]. intros name. unfold JsMap.has.
  destruct (JsMap.get name (servers _)) eqn:H1,
           (JsMap.get name (serverStatuses _)) eqn:H2; try done.
  - assert (is_Some (JsMap.get name
              (serverStatuses (run impl (take n ops) (new_registry, w0)).1)))
      as [? ?]; [|congruence].
    eapply JsMap_get_same_keys; [exact Hk | by rewrite H1].
  - assert (is_Some (JsMap.get name
              (servers (run impl (take n ops) (new_registry, w0)).1)))
      as [? ?]; [|congruence].
    eapply JsMap_get_same_keys; [symmetry; exact Hk | by rewrite H2].
Qed.

(** Whatever the operations and however the executeTool calls overlap
    them, a name in the handle map always has a cached status. *)
Lemma handle_names_have_status (ops : list (@Op Params)) (w0 : World) name :
  let reg := (run impl ops (new_registry, w0)).1 in
  JsMap.has name (servers reg) = true →
  JsMap.has name (serverStatuses reg) = true.
Proof.
  simpl. destruct (run_keeps_names ops new_registry w0) as (_ & Hsub & _).
  { constructor. } { done. } { constructor. }
  unfold JsMap.has. intros H.
  destruct (JsMap.get name (servers _)) eqn:H1; [|done].
  assert (is_Some (JsMap.get name
            (serverStatuses (run impl ops (new_registry, w0)).1)))
    as [? ->]; [|done].
  apply JsMap_get_keys, Hsub, JsMap_get_keys. by rewrite H1.
Qed.

(** *** One round of health probes *)

(** C9.  In one round every entry of the handle map is probed, in map
    order, whatever the other probes did: the round adds exactly one
    healthCheck call per entry to the call log.  Each service's cached
    status is then rewritten from its own probe alone: a probe that answers
    true gives online with the error cleared, one that answers false gives
    offline with the fixed probe-failed message, one that raises gives
    offline with the raised message; lastUpdate is the time read in that
    callback.  ([pre] are the entries probed before the service; the probe
    sees its handle as those probes left it.) *)
Theorem performHealthCheck_probes_every_service now reg w :
  NoDup (JsMap.keys (servers reg)) →
  let '(reg', w') := performHealthCheck impl now reg w in
  (∃ new, calls w' = calls w ++ new ∧
          Forall2 (λ e c, ∃ o, c = CallHealthCheck e.2 o) (servers reg) new) ∧
  ∀ pre name server post cur,
    servers reg = pre ++ (name, server) :: post →
    getServerStatus name reg = Some cur →
    let w_i := (fold_left (probe_entry impl now) pre (reg, w)).2 in
    getServerStatus name reg'
    = Some
        match (healthCheck (impl server) (objs w_i server)).1 with
        | Return true =>
            {| online := true; lastUpdate := now name;
               responseTime := responseTime cur; error := None;
               load := load cur |}
        | Return false =>
            {| online := false; lastUpdate := now name;
               responseTime := responseTime cur;
               error := Some msg_health_check_failed;
               load := load cur |}
        | Throw msg =>
            {| online := false; lastUpdate := now name;
               responseTime := responseTime cur; error := Some msg;
               load := load cur |}
        end.
Proof.
  intros Hnd. unfold performHealthCheck, JsMap.entries.
  pose proof (probe_entries_frame now (servers reg) reg w) as Hall.
  destruct (fold_left (probe_entry impl now) (servers reg) (reg, w))
    as [reg' w'] eqn:Hfold.
  destruct Hall as (_ & _ & _ & Hcalls). split; [exact Hcalls|].
  intros pre name server post cur Hsplit Hcur.
  rewrite Hsplit in Hfold, Hnd. rewrite fold_left_app in Hfold.
  cbn [fold_left] in Hfold.
  unfold JsMap.keys in Hnd. rewrite fmap_app, fmap_cons in Hnd.
  apply NoDup_app in Hnd as (_ & Hpre & Hpost).
  apply NoDup_cons in Hpost as [Hpost _].
  assert (name ∉ pre.*1) as Hnotpre.
  { intros Hin. apply (Hpre name Hin). left. }
  pose proof (probe_entries_frame now pre reg w) as Hp.
  destruct (fold_left (probe_entry impl now) pre (reg, w)) as [reg1 w1].
  destruct Hp as (_ & _ & Hsame1 & _). simpl.
  pose proof (probe_entry_spec now reg1 w1 name server) as Hone.
  destruct (probe_entry impl now (reg1, w1) (name, server)) as [reg2 w2].
  destruct Hone as (_ & _ & _ & _ & Hst).
  pose proof (probe_entries_frame now post reg2 w2) as Hq.
  rewrite Hfold in Hq. destruct Hq as (_ & _ & Hsame2 & _).
  rewrite (Hsame2 name Hpost), Hst, (Hsame1 name Hnotpre), Hcur. simpl.
  by destruct (healthCheck (impl server) (objs w1 server)).1 as [[|]|msg].
Qed.

End RegistryFacts.

(** ** The registry in front of BaziServer handles *)

Section BaziFacts.

Context {Params Result : Type}.
Variable run_tool : string -> Params -> Completion Result.
Variable calculate_ok : bool.
Variable finish_time : Z -> Z.

Let impl : Ref -> @IMCPServer Bazi.state Params Result :=
  fun _ => Bazi.server run_tool calculate_ok finish_time.

(** With a BaziServer handle the hypothesis of C4's amended statement is
    met: whether the tool resolves or rejects, the handle's count of active
    requests after a call through the registry is the one before it, the
    status keeps mirroring the counters, and the cached activeRequests is
    that same count. *)
Lemma bazi_counters_return name toolName params t0 t1 reg
    (w : @World Bazi.state Params Result) server result reg' w' :
  Bazi.mirrored (objs w server) →
  JsMap.get name (servers reg) = Some server →
  executeTool_op impl name toolName params t0 t1 reg w = (result, reg', w') →
  Bazi.bz_activeRequests (objs w' server)
  = Bazi.bz_activeRequests (objs w server) ∧
  Bazi.mirrored (objs w' server) ∧
  ∃ cached',
    getServerStatus name reg' = Some cached' ∧
    activeRequests <$> load cached'
    = Some (Bazi.bz_activeRequests (objs w server)).
Proof.
  intros Hmir Hget Hrun.
  destruct (online (status_of impl w server)) eqn:Hon.
  - rewrite (executeTool_op_online impl _ _ _ _ _ _ _ _ Hget Hon) in Hrun.
    unfold invoke_executeTool in Hrun. simpl in Hrun.
    destruct (run_tool toolName params) as [r|msg]; simplify_eq; simpl;
      rewrite fn_lookup_insert; simpl.
    + split; [lia|]. split.
      { unfold Bazi.mirrored. simpl. done. }
      eexists. split; [apply getServerStatus_update_eq|].
      simpl. unfold status_of. simpl. by rewrite Hmir.
    + split; [lia|]. split.
      { unfold Bazi.mirrored. simpl. done. }
      eexists. split; [apply getServerStatus_update_eq|].
      simpl. unfold status_of. simpl. rewrite fn_lookup_insert. simpl.
      do 3 f_equal. lia.
  - rewrite (executeTool_op_offline impl _ _ _ _ _ _ _ _ Hget Hon) in Hrun.
    simplify_eq. split; [done|]. split; [done|].
    eexists. split; [apply getServerStatus_update_eq|].
    simpl. unfold status_of. simpl. by rewrite Hmir.
Qed.

End BaziFacts.

(** ** The load balancer *)

Section LoadBalancerFacts.

Context {HState Params Result : Type}.
Variable impl : Ref -> @IMCPServer HState Params Result.

Implicit Types (w : @World HState Params Result) (servers : list Ref).
Implicit Types (lb : LoadBalancer) (u : Random).

Local Abbreviation available w servers :=
  (List.filter (λ server, online (status_of impl w server)) servers).

Lemma elem_of_available w servers s :
  s ∈ available w servers ↔ s ∈ servers ∧ online (status_of impl w s) = true.
Proof. rewrite !list_elem_of_In. apply List.filter_In. Qed.

Lemma random_index_lt u (len : nat) :
  (0 < len)%nat → (random_index u len < len)%nat.
Proof.
  intros Hlen. unfold random_index.
  apply Nat.Div0.div_lt_upper_bound. nia.
Qed.

(** Past the two guards, selectServer is the [switch] on the policy. *)
Lemma selectServer_switch lb u w servers :
  available w servers ≠ [] →
  selectServer impl lb u w servers
  = if String.eqb (strategy lb) ROUND_ROBIN
    then selectRoundRobin lb (available w servers)
    else if String.eqb (strategy lb) RANDOM
    then (selectRandom u (available w servers), lb)
    else if String.eqb (strategy lb) LEAST_CONNECTIONS
    then (selectLeastConnections impl w (available w servers), lb)
    else (Return (available w servers !! 0%nat), lb).
Proof.
  intros Hne. unfold selectServer.
  destruct servers as [|s0 servers]; [done|].
  cbn [length Nat.eqb].
  destruct (available w (s0 :: servers)) as [|a0 avail]; [done|].
  done.
Qed.

Lemma selectServer_none_online lb u w servers :
  servers ≠ [] → available w servers = [] →
  selectServer impl lb u w servers = (Throw msg_no_online_instances, lb).
Proof.
  intros Hne Hnone. unfold selectServer.
  destruct servers as [|s0 servers]; [done|].
  cbn [length Nat.eqb]. by rewrite Hnone.
Qed.

Lemma selectRoundRobin_nonempty lb (l : list Ref) :
  l ≠ [] →
  selectRoundRobin lb l
  = (Return (l !! (roundRobinIndex lb mod length l)%nat),
     {| strategy := strategy lb; roundRobinIndex := S (roundRobinIndex lb) |}).
Proof. intros Hne. unfold selectRoundRobin. by destruct l. Qed.

Lemma selectRandom_nonempty u (l : list Ref) :
  l ≠ [] → ∃ s, selectRandom u l = Return (Some s) ∧ s ∈ l.
Proof.
  intros Hne. unfold selectRandom.
  destruct l as [|a l]; [done|]. cbn [length Nat.eqb].
  destruct (lookup_lt_is_Some_2 (a :: l) (random_index u (S (length l))))
    as [s Hs].
  { apply (random_index_lt u (S (length l))). lia. }
  exists s. cbn [length] in *. rewrite Hs. split; [done|].
  by eapply list_elem_of_lookup_2.
Qed.

(** The [reduce] of selectLeastConnections keeps the first element with the
    least count among those seen so far. *)
Lemma pick_least_fold w (rest : list Ref) : ∀ (seen : list Ref) least i,
  seen !! i = Some least →
  (∀ s, s ∈ seen → connections impl w least ≤ connections impl w s) →
  (∀ j s, (j < i)%nat → seen !! j = Some s →
          connections impl w least < connections impl w s) →
  ∃ i',
    (seen ++ rest) !! i' = Some (fold_left (pick_least impl w) rest least) ∧
    (∀ s, s ∈ seen ++ rest →
       connections impl w (fold_left (pick_least impl w) rest least)
       ≤ connections impl w s) ∧
    (∀ j s, (j < i')%nat → (seen ++ rest) !! j = Some s →
       connections impl w (fold_left (pick_least impl w) rest least)
       < connections impl w s).
Proof.
  induction rest as [|x rest IH]; intros seen least i Hi Hmin Hfirst.
  - exists i. rewrite app_nil_r. simpl. done.
  - cbn [fold_left]. replace (seen ++ x :: rest) with ((seen ++ [x]) ++ rest)
      by by rewrite <-app_assoc.
    assert (pick_least impl w least x = x ∧
              connections impl w x < connections impl w least ∨
            pick_least impl w least x = least ∧
              connections impl w least ≤ connections impl w x)
      as [[-> Hlt]|[-> Hge]].
    { unfold pick_least.
      destruct (Z.ltb_spec (connections impl w x) (connections impl w least));
        [by left | by right]. }
    + apply (IH (seen ++ [x]) x (length seen)).
      * by rewrite lookup_app_r, Nat.sub_diag by lia.
      * intros s Hs. apply elem_of_app in Hs as [Hs|Hs].
        -- specialize (Hmin s Hs). lia.
        -- apply list_elem_of_singleton in Hs as ->. lia.
      * intros j s Hj Hs. rewrite lookup_app_l in Hs by done.
        apply list_elem_of_lookup_2 in Hs. specialize (Hmin s Hs). lia.
    + apply (IH (seen ++ [x]) least i).
      * rewrite lookup_app_l; [done|]. by eapply lookup_lt_Some.
      * intros s Hs. apply elem_of_app in Hs as [Hs|Hs].
        -- by apply Hmin.
        -- apply list_elem_of_singleton in Hs as ->. lia.
      * intros j s Hj Hs. apply (Hfirst j s Hj).
        rewrite lookup_app_l in Hs; [done|].
        apply lookup_lt_Some in Hi. lia.
Qed.

(** *** Round robin *)

Lemma selectServer_round_robin (c : nat) u w servers :
  available w servers ≠ [] →
  selectServer impl {| strategy := ROUND_ROBIN; roundRobinIndex := c |}
    u w servers
  = (Return (available w servers !! (c mod length (available w servers))%nat),
     {| strategy := ROUND_ROBIN; roundRobinIndex := S c |}).
Proof.
  intros Hne. rewrite selectServer_switch by done.
  cbn [strategy]. change (String.eqb ROUND_ROBIN ROUND_ROBIN) with true.
  cbv iota. by rewrite selectRoundRobin_nonempty.
Qed.

Lemma selectServer_times_round_robin w servers (n : nat) : ∀ (c : nat) us,
  available w servers ≠ [] →
  selectServer_times impl n
    {| strategy := ROUND_ROBIN; roundRobinIndex := c |} us w servers
  = ((λ k : nat,
        Return (available w servers
                  !! ((c + k) mod length (available w servers))%nat))
       <$> seq 0 n,
     {| strategy := ROUND_ROBIN; roundRobinIndex := (c + n)%nat |}).
Proof.
  induction n as [|n IH]; intros c us Hne; cbn [selectServer_times].
  - by rewrite Nat.add_0_r.
  - rewrite selectServer_round_robin by done.
    rewrite (IH (S c) _ Hne). cbn [seq fmap list_fmap]. f_equal.
    + rewrite Nat.add_0_r. f_equal.
      rewrite <-fmap_S_seq, <-list_fmap_compose.
      apply list_fmap_ext. intros _ k _. simpl.
      by rewrite Nat.add_succ_r.
    + by rewrite Nat.add_succ_r.
Qed.

Lemma rotate_Permutation {A : Type} (c : nat) (l : list A) : rotate c l ≡ₚ l.
Proof.
  unfold rotate. rewrite Permutation_app_comm. by rewrite take_drop.
Qed.

(** C5.  Under round robin, with [N] the number of online candidates and
    nothing changing between the calls, [N] consecutive calls of
    selectServer return the online candidates rotated by the cursor: every
    position of the filtered list is returned exactly once, the returned
    sequence is a permutation of the filtered list, and the cursor has
    advanced by [N], from where the same sequence repeats. *)
Theorem round_robin_visits_each_once (c : nat) us w servers :
  let N := length (available w servers) in
  let '(picks, lb') :=
    selectServer_times impl N
      {| strategy := ROUND_ROBIN; roundRobinIndex := c |} us w servers in
  picks = (λ s, Return (Some s)) <$> rotate c (available w servers) ∧
  rotate c (available w servers) ≡ₚ available w servers ∧
  lb' = {| strategy := ROUND_ROBIN; roundRobinIndex := (c + N)%nat |} ∧
  rotate (c + N) (available w servers) = rotate c (available w servers).
Proof.
  simpl. destruct (decide (available w servers = [])) as [Hnil|Hne].
  - rewrite Hnil. cbn [length selectServer_times].
    rewrite Nat.add_0_r.
    assert (rotate c (@nil Ref) = []) as ->.
    { unfold rotate. by rewrite drop_nil, take_nil. }
    done.
  - rewrite selectServer_times_round_robin by done.
    split; [|split; [apply rotate_Permutation | split; [done|]]].
    2:{ unfold rotate.
        replace ((c + length (available w servers))
                   mod length (available w servers))%nat
          with (c mod length (available w servers))%nat; [done|].
        rewrite <-(Nat.mul_1_l (length (available w servers))) at 2.
        by rewrite Nat.Div0.mod_add. }
    apply list_eq. intros i. rewrite !list_lookup_fmap.
    destruct (decide (i < length (available w servers))%nat) as [Hi|Hi].
    + rewrite lookup_seq_lt by done. rewrite lookup_rotate_r by done.
      unfold rotate_nat_add.
      rewrite <-Nat2Z.inj_add, <-Nat2Z.inj_mod, Nat2Z.id. simpl.
      destruct (lookup_lt_is_Some_2 (available w servers)
                  ((c + i) mod length (available w servers))%nat) as [s Hs].
      { apply Nat.mod_upper_bound. lia. }
      by rewrite Hs.
    + rewrite lookup_seq_ge by lia.
      rewrite lookup_ge_None_2; [done|]. rewrite length_rotate. lia.
Qed.

(** *** Least connections *)


(** *** Only online candidates are returned *)

(** C7.  When the candidate list is not empty and no candidate reports
    online, selectServer throws the no-online-instance error, whose message
    differs from the one of the registry's not-found error (and from the
    one for an empty candidate list).  Under every policy, whatever
    selectServer returns is a member of the candidate list that reported
    online when the list was filtered; it never returns [undefined]. *)
Theorem selectServer_returns_online_member lb u w servers :
  (servers ≠ [] →
   (∀ s, s ∈ servers → online (status_of impl w s) = false) →
   selectServer impl lb u w servers = (Throw msg_no_online_instances, lb)) ∧
  (∀ name names, msg_no_online_instances ≠ msg_not_found name names) ∧
  msg_no_online_instances ≠ msg_no_instances ∧
  (∀ r lb', selectServer impl lb u w servers = (Return r, lb') →
     ∃ s, r = Some s ∧ s ∈ servers ∧ online (status_of impl w s) = true).
Proof.
  split; [|split; [|split]].
  - intros Hne Hoff. apply selectServer_none_online; [done|].
    destruct (available w servers) as [|a l] eqn:Hav; [done|].
    assert (a ∈ available w servers) as Ha by (rewrite Hav; left).
    apply elem_of_available in Ha as [Ha Hon].
    rewrite (Hoff a Ha) in Hon. done.
  - intros name names. unfold msg_no_online_instances, msg_not_found.
    simpl. discriminate.
  - unfold msg_no_online_instances, msg_no_instances. discriminate.
  - intros r lb' Hsel.
    destruct (decide (available w servers = [])) as [Hnil|Hne].
    { unfold selectServer in Hsel. rewrite Hnil in Hsel.
      destruct servers; simpl in Hsel; discriminate. }
    assert (∀ s, s ∈ available w servers →
              ∃ s', Some s = Some s' ∧ s' ∈ servers ∧
                    online (status_of impl w s') = true) as Hmem.
    { intros s Hs. exists s. split; [done|]. by apply elem_of_available. }
    rewrite selectServer_switch in Hsel by done.
    destruct (String.eqb (strategy lb) ROUND_ROBIN).
    { rewrite selectRoundRobin_nonempty in Hsel by done.
      injection Hsel as <- <-.
      destruct (lookup_lt_is_Some_2 (available w servers)
                  (roundRobinIndex lb mod length (available w servers))%nat)
        as [s Hs].
      { apply Nat.mod_upper_bound. by destruct (available w servers). }
      rewrite Hs. apply Hmem. by eapply list_elem_of_lookup_2. }
    destruct (String.eqb (strategy lb) RANDOM).
    { destruct (selectRandom_nonempty u _ Hne) as (s & Hs & Hin).
      rewrite Hs in Hsel. injection Hsel as <- <-. by apply Hmem. }
    destruct (String.eqb (strategy lb) LEAST_CONNECTIONS).
    { destruct (available w servers) as [|first rest] eqn:Hav; [done|].
      unfold selectLeastConnections in Hsel. injection Hsel as <- <-.
      destruct (pick_least_fold w rest [first] first 0%nat)
        as (i & Hi & _ & _).
      - done.
      - intros s Hs. apply list_elem_of_singleton in Hs as ->. lia.
      - intros j s Hj. lia.
      - apply Hmem. by eapply list_elem_of_lookup_2. }
    injection Hsel as <- <-.
    destruct (available w servers) as [|first rest] eqn:Hav; [done|].
    simpl. apply Hmem. left.
Qed.

(** *** Switching the policy *)

(** C8.  setStrategy stores the new policy and sets the round-robin cursor
    to zero, whatever the balancer state was; the two fields are the whole
    state.  After switching to round robin, the next selection returns the
    first online candidate of the list it is given.  Under the random and
    the least-connections policy the selection does not depend on the
    cursor and leaves the balancer as it is. *)
Theorem setStrategy_resets_cursor lb s :
  setStrategy s lb = {| strategy := s; roundRobinIndex := 0%nat |} ∧
  (∀ u w servers,
     available w servers ≠ [] →
     ∃ first,
       head (available w servers) = Some first ∧
       (selectServer impl (setStrategy ROUND_ROBIN lb) u w servers).1
       = Return (Some first)) ∧
  (∀ policy (c1 c2 : nat) u w servers,
     policy = RANDOM ∨ policy = LEAST_CONNECTIONS →
     (selectServer impl {| strategy := policy; roundRobinIndex := c1 |}
        u w servers).1
     = (selectServer impl {| strategy := policy; roundRobinIndex := c2 |}
          u w servers).1 ∧
     (selectServer impl {| strategy := policy; roundRobinIndex := c1 |}
        u w servers).2
     = {| strategy := policy; roundRobinIndex := c1 |}).
Proof.
  split; [done|]. split.
  - intros u w servers Hne. unfold setStrategy.
    rewrite selectServer_round_robin by done.
    destruct (available w servers) as [|first rest]; [done|].
    exists first. split; [done|]. simpl. by rewrite Nat.sub_diag.
  - intros policy c1 c2 u w servers Hpol. unfold selectServer.
    destruct (length servers =? 0)%nat; [done|].
    destruct (length (available w servers) =? 0)%nat; [done|].
    cbn [strategy].
    destruct Hpol as [-> | ->].
    + change (String.eqb RANDOM ROUND_ROBIN) with false.
      change (String.eqb RANDOM RANDOM) with true. done.
    + change (String.eqb LEAST_CONNECTIONS ROUND_ROBIN) with false.
      change (String.eqb LEAST_CONNECTIONS RANDOM) with false.
      change (String.eqb LEAST_CONNECTIONS LEAST_CONNECTIONS) with true. done.
Qed.

End LoadBalancerFacts.

(** * Concrete runs *)

(** ** Instances of the theorems above on the scripted handles *)

Lemma executeTool_consults_handle_status_witness :
  let w := Stub.world Stub.unhealthy_but_serving in
  let reg := Stub.registered w in
  JsMap.get "svc-a" (servers reg) = Some 0%nat ∧
  (executeTool_op Stub.impl "svc-a" "op1" tt 100 105 reg w).1.1 = Return tt.
Proof.
  split; [reflexivity|].
  pose proof (executeTool_consults_handle_status Stub.impl
                "svc-a" "op1" tt 100 105
                (Stub.registered (Stub.world Stub.unhealthy_but_serving))
                (Stub.world Stub.unhealthy_but_serving) 0%nat eq_refl) as H.
  vm_compute in H. vm_compute. exact (proj1 H).
Defined.

Lemma executeTool_rejection_overwrites_cache_witness :
  let offline :=
    {| Stub.stub_status := with_offline_error Stub.idle "down";
       Stub.stub_exec := Return tt; Stub.stub_health := Return false;
       Stub.stub_leak := 0 |} in
  let w := Stub.world offline in
  let reg := Stub.registered (Stub.world Stub.unhealthy_but_serving) in
  JsMap.get "svc-a" (servers reg) = Some 0%nat ∧
  online (status_of Stub.impl w 0%nat) = false ∧
  ∃ reg' cached,
    executeTool_op Stub.impl "svc-a" "op1" tt 100 105 reg w
    = (Throw (msg_unavailable "svc-a"), reg', w) ∧
    getServerStatus "svc-a" reg' = Some cached ∧
    online cached = false ∧
    error cached = Some (msg_unavailable "svc-a") ∧
    cached
    = with_offline_error (status_of Stub.impl w 0%nat)
        (msg_unavailable "svc-a").
Proof.
  split; [reflexivity|]. split; [reflexivity|].
  apply (executeTool_rejection_overwrites_cache Stub.impl);
    reflexivity.
Defined.


Lemma executeTool_cached_load_witness :
  let w := Stub.world (Stub.with_active 0) in
  let reg := Stub.registered w in
  JsMap.get "svc-a" (servers reg) = Some 0%nat ∧
  getServerStatus "svc-a" reg = Some (status_of Stub.impl w 0%nat) ∧
  ∃ reg' w' cached',
    executeTool_op Stub.impl "svc-a" "op1" tt 100 105 reg w
    = (Return tt, reg', w') ∧
    getServerStatus "svc-a" reg' = Some cached' ∧
    load cached' = load (status_of Stub.impl w 0%nat).
Proof.
  split; [reflexivity|]. split; [reflexivity|].
  eexists _, _.
  destruct (executeTool_cached_load Stub.impl "svc-a" "op1" tt 100 105
              (Stub.registered (Stub.world (Stub.with_active 0)))
              (Stub.world (Stub.with_active 0)) 0%nat
              _ (Return tt) _ _ eq_refl eq_refl eq_refl)
    as (cached' & Hget & Hload & _).
  exists cached'. split; [reflexivity|]. split; [exact Hget | exact Hload].
Defined.

Lemma performHealthCheck_probes_every_service_witness :
  let w := Stub.world2 Stub.raising_probe (Stub.with_active 1) in
  let reg := Stub.registered2 w in
  let now := fun _ : string => 50 in
  NoDup (JsMap.keys (servers reg)) ∧
  (∃ a b,
     getServerStatus "svc-a" (performHealthCheck Stub.impl now reg w).1 = Some a ∧
     online a = false ∧ error a = Some "probe crashed" ∧ lastUpdate a = 50 ∧
     getServerStatus "svc-b" (performHealthCheck Stub.impl now reg w).1 = Some b ∧
     online b = true ∧ error b = None ∧ lastUpdate b = 50).
Proof.
  assert (NoDup (JsMap.keys (servers
            (Stub.registered2
               (Stub.world2 Stub.raising_probe (Stub.with_active 1))))))
    as Hnd.
  { apply NoDup_cons. split.
    - intros H. apply elem_of_cons in H as [H|H]; [discriminate H|].
      inversion H.
    - apply NoDup_singleton. }
  split; [exact Hnd|].
  pose proof (performHealthCheck_probes_every_service Stub.impl
                (fun _ => 50)
                (Stub.registered2
                   (Stub.world2 Stub.raising_probe (Stub.with_active 1)))
                (Stub.world2 Stub.raising_probe (Stub.with_active 1))
                Hnd) as H.
  destruct (performHealthCheck Stub.impl (fun _ => 50)
              (Stub.registered2
                 (Stub.world2 Stub.raising_probe (Stub.with_active 1)))
              (Stub.world2 Stub.raising_probe (Stub.with_active 1)))
    as [reg' w'].
  destruct H as [_ H].
  pose proof (H [] "svc-a" 0%nat [("svc-b", 1%nat)] _ eq_refl eq_refl) as Ha.
  pose proof (H [("svc-a", 0%nat)] "svc-b" 1%nat [] _ eq_refl eq_refl) as Hb.
  simpl in Ha, Hb |- *. rewrite Ha, Hb. eexists _, _.
  split; [reflexivity|]. split; [reflexivity|]. split; [reflexivity|].
  split; [reflexivity|].
  split; [reflexivity|]. split; [reflexivity|]. split; reflexivity.
Defined.


Lemma selectServer_returns_online_member_witness :
  let offline :=
    {| Stub.stub_status := with_offline_error Stub.idle "down";
       Stub.stub_exec := Return tt; Stub.stub_health := Return false;
       Stub.stub_leak := 0 |} in
  let w := Stub.world offline in
  let lb := new_LoadBalancer RANDOM in
  let u := {| numer := 1; slack := 2 |} in
  [0%nat; 1%nat] ≠ @nil Ref ∧
  (∀ s, s ∈ [0%nat; 1%nat] → online (status_of Stub.impl w s) = false) ∧
  selectServer Stub.impl lb u w [0%nat; 1%nat]
  = (Throw msg_no_online_instances, lb).
Proof.
  assert ([0%nat; 1%nat] ≠ @nil Ref) as Hne by discriminate.
  split; [exact Hne|].
  assert (∀ s : Ref, s ∈ [0%nat; 1%nat] →
            online (status_of Stub.impl
              (Stub.world
                 {| Stub.stub_status := with_offline_error Stub.idle "down";
                    Stub.stub_exec := Return tt;
                    Stub.stub_health := Return false;
                    Stub.stub_leak := 0 |}) s) = false) as Hoff.
  { intros s _. reflexivity. }
  split; [exact Hoff|].
  exact (proj1 (selectServer_returns_online_member Stub.impl
                  (new_LoadBalancer RANDOM) {| numer := 1; slack := 2 |}
                  _ [0%nat; 1%nat]) Hne Hoff).
Defined.

Lemma setStrategy_resets_cursor_witness :
  let w := Stub.world2 (Stub.with_active 3) (Stub.with_active 1) in
  let lb := {| strategy := RANDOM; roundRobinIndex := 5%nat |} in
  let u := {| numer := 1; slack := 2 |} in
  List.filter (λ server, online (status_of Stub.impl w server))
    [1%nat; 0%nat] ≠ [] ∧
  (selectServer Stub.impl (setStrategy ROUND_ROBIN lb) u w [1%nat; 0%nat]).1
  = Return (Some 1%nat).
Proof.
  assert (List.filter
            (λ server, online (status_of Stub.impl
               (Stub.world2 (Stub.with_active 3) (Stub.with_active 1)) server))
            [1%nat; 0%nat] ≠ []) as Hne by discriminate.
  split; [exact Hne|].
  destruct (proj1 (proj2 (setStrategy_resets_cursor Stub.impl
                            {| strategy := RANDOM; roundRobinIndex := 5%nat |}
                            RANDOM))
              {| numer := 1; slack := 2 |}
              (Stub.world2 (Stub.with_active 3) (Stub.with_active 1))
              [1%nat; 0%nat] Hne) as (first & Hhead & Hsel).
  injection Hhead as <-. exact Hsel.
Defined.

(** ** Runs on which the specification's wording and the code differ *)

(** C1, counterexample.  "svc-a" is registered with a handle that reports
    online and whose probe answers false.  After one probe round the cached
    status is offline with the probe-failed message.  executeTool then still
    calls the handle's executeTool (reading the handle's own status, which
    is online) and returns its result. *)
Lemma executeTool_ignores_cached_offline :
  let w0 := Stub.world Stub.unhealthy_but_serving in
  let '(reg, w) :=
    run Stub.impl [OpRegister "svc-a" 0%nat; OpHealthCheck (fun _ => 50)]
      (new_registry, w0) in
  ∃ cached,
    getServerStatus "svc-a" reg = Some cached ∧
    online cached = false ∧
    error cached = Some msg_health_check_failed ∧
    let '(result, _, w') :=
      executeTool_op Stub.impl "svc-a" "op1" tt 100 105 reg w in
    result = Return tt ∧
    calls w' = calls w ++ [CallExecuteTool 0%nat "op1" tt (Return tt)].
Proof. vm_compute. eexists. repeat split. Qed.


(** C4, counterexample.  The handle's executeTool rejects and leaves the
    request counted as active.  The cached activeRequests is 0 before the
    failing call and 1 after it. *)
Lemma executeTool_failure_changes_cached_activeRequests :
  let w := Stub.world Stub.failing_leaky in
  let reg := Stub.registered w in
  let '(result, reg', _) :=
    executeTool_op Stub.impl "svc-a" "op1" tt 100 105 reg w in
  result = Throw "boom" ∧
  ∃ before after,
    getServerStatus "svc-a" reg = Some before ∧
    activeRequests <$> load before = Some 0 ∧
    getServerStatus "svc-a" reg' = Some after ∧
    activeRequests <$> load after = Some 1.
Proof. vm_compute. split; [reflexivity|]. eexists _, _. repeat split. Qed.

(** ** An executeTool call that overlaps an unregister *)

(** C3, the run on which the key sets differ.  "svc-a" is registered,
    executeTool("svc-a", "op1") is started and waits for its handle,
    unregister("svc-a") runs and removes the name from both maps, then the
    handle's promise resolves and the continuation of executeTool writes
    the status of "svc-a" (line 134, through updateServerStatus) without
    looking whether the name is still registered.  The handle map is then
    empty and the status map holds "svc-a".  Up to the continuation the two
    key lists are equal. *)
Theorem unregister_during_pending_call :
  let w0 := Stub.world (Stub.with_active 0) in
  let ops := [OpRegister "svc-a" 0%nat;
              OpExecuteBegin "svc-a" "op1" tt 100;
              OpUnregister "svc-a";
              OpExecuteResume 0 105] in
  let after n := (run Stub.impl (take n ops) (new_registry, w0)).1 in
  JsMap.keys (servers (after 1%nat)) = ["svc-a"] ∧
  JsMap.keys (serverStatuses (after 1%nat)) = ["svc-a"] ∧
  JsMap.keys (servers (after 2%nat)) = ["svc-a"] ∧
  JsMap.keys (serverStatuses (after 2%nat)) = ["svc-a"] ∧
  JsMap.keys (servers (after 3%nat)) = [] ∧
  JsMap.keys (serverStatuses (after 3%nat)) = [] ∧
  JsMap.keys (servers (after 4%nat)) = [] ∧
  JsMap.keys (serverStatuses (after 4%nat)) = ["svc-a"] ∧
  hasServer "svc-a" (after 4%nat) = false ∧
  getServerStatus "svc-a" (after 4%nat)
  = Some {| online := true; lastUpdate := 0; responseTime := Some 5;
            error := None;
            load := Some {| activeRequests := 0; totalRequests := 0 |} |}.
Proof. vm_compute. repeat split. Qed.

(** The same steps written with the two halves of the method. *)
Remark unregister_between_begin_and_resume :
  let w := Stub.world (Stub.with_active 0) in
  let reg := Stub.registered w in
  match executeTool_begin Stub.impl "svc-a" "op1" tt 100 reg w with
  | (Awaiting p, w1) =>
      let reg1 := unregister "svc-a" reg in
      let '(_, reg2) := executeTool_resume Stub.impl p 105 reg1 w1 in
      JsMap.keys (servers reg2) = [] ∧
      JsMap.keys (serverStatuses reg2) = ["svc-a"]
  | (Finished _ _, _) => False
  end.
Proof. vm_compute. split; reflexivity. Qed.

(** ** A handle that updates its status object in place

    The handle hands out its own status object and its executeTool counts
    the call in it and goes offline.  After a call that returns, the cache
    holds what that object contains after the call: one request counted and
    [online] false, with the response time of the call. *)
Remark status_object_is_read_after_the_call :
  let w := LiveStub.world LiveStub.closing in
  let '(result, reg', _) :=
    executeTool_op LiveStub.impl "svc-a" "op1" tt 100 105
      (LiveStub.registered w) w in
  result = Return tt ∧
  getServerStatus "svc-a" (LiveStub.registered w) = Some Stub.idle ∧
  getServerStatus "svc-a" reg'
  = Some {| online := false; lastUpdate := 0; responseTime := Some 5;
            error := None;
            load := Some {| activeRequests := 0; totalRequests := 1 |} |}.
Proof. vm_compute. repeat split. Qed.

(** * Further facts: the other methods and the callers *)

(** ** Registration and lookup *)

Section RegistryLookupFacts.

Context {HState Params Result : Type}.
Variable impl : Ref -> @IMCPServer HState Params Result.

Implicit Types (reg : @Registry) (w : @World HState Params Result).
Implicit Types (name toolName : string) (server : Ref).

(** X1.  After [register(name, server)], lookups of [name] give the new
    handle and the status the handle reported at registration; lookups of
    every other name give what they gave before. *)
Theorem register_then_lookup name server w reg :
  let reg' := register impl name server w reg in
  getServer name reg' = Return server ∧
  hasServer name reg' = true ∧
  getServerStatus name reg' = Some (status_of impl w server) ∧
  ∀ name', name ≠ name' →
    JsMap.get name' (servers reg') = JsMap.get name' (servers reg) ∧
    hasServer name' reg' = hasServer name' reg ∧
    getServerStatus name' reg' = getServerStatus name' reg.
Proof.
  simpl. unfold getServer, hasServer, JsMap.has, getServerStatus, register.
  simpl. rewrite !JsMap_get_set_eq. repeat split; try done.
  - by apply JsMap_get_set_ne.
  - by rewrite JsMap_get_set_ne.
  - by apply JsMap_get_set_ne.
Qed.

(** X2.  In a well-formed registry, after [unregister(name)] the name is
    gone from both maps: hasServer is false, getServerStatus is null and
    getServer throws the not-found error; every other name is looked up as
    before.  Unregistering a name that is not registered changes
    nothing. *)
Theorem unregister_then_lookup name reg :
  well_formed reg →
  let reg' := unregister name reg in
  hasServer name reg' = false ∧
  getServerStatus name reg' = None ∧
  getServer name reg' = Throw (msg_not_found name (getServerNames reg')) ∧
  (name ∉ getServerNames reg') ∧
  (∀ name', name ≠ name' →
     JsMap.get name' (servers reg') = JsMap.get name' (servers reg) ∧
     getServerStatus name' reg' = getServerStatus name' reg) ∧
  (hasServer name reg = false → reg' = reg).
Proof.
  intros [Hnd Hagree]. simpl.
  assert (Hgone : JsMap.get name (servers (unregister name reg)) = None ∧
                  JsMap.get name (serverStatuses (unregister name reg)) = None).
  { unfold unregister, JsMap.has.
    destruct (JsMap.get name (servers reg)) eqn:Hget; simpl.
    - split; apply JsMap_get_delete_eq; [done | by rewrite <-Hagree].
    - split; [done|].
      destruct (JsMap.get name (serverStatuses reg)) eqn:Hst; [|done].
      assert (is_Some (JsMap.get name (servers reg))) as [? ?]; [|congruence].
      eapply JsMap_get_same_keys; [symmetry; exact Hagree | by rewrite Hst]. }
  destruct Hgone as [Hg1 Hg2].
  split; [by unfold hasServer, JsMap.has; rewrite Hg1|].
  split; [exact Hg2|].
  split; [by unfold getServer; rewrite Hg1|].
  split.
  { intros Hin. apply JsMap_get_keys in Hin as [? ?]. congruence. }
  split.
  - intros name' Hne. unfold unregister, getServerStatus.
    destruct (JsMap.has name (servers reg)); [|done]. simpl.
    by rewrite !JsMap_get_delete_ne.
  - intros Hno. unfold unregister. unfold hasServer in Hno. by rewrite Hno.
Qed.

(** X3.  getServerNames lists the names in registration order: registering
    a new name appends it, registering a name again keeps the list as it
    is (the handle and the cached status under that name are replaced in
    place). *)
Theorem register_names_order name server w reg :
  getServerNames (register impl name server w reg)
  = if hasServer name reg then getServerNames reg
    else getServerNames reg ++ [name].
Proof.
  unfold getServerNames, hasServer, JsMap.has, register. simpl.
  destruct (JsMap.get name (servers reg)) eqn:Hget.
  - apply JsMap_keys_set_present. by rewrite Hget.
  - by apply JsMap_keys_set_absent.
Qed.

(** X4.  In every registry reached from the empty one by register,
    unregister, executeTool (run alone, or suspended and resumed among the
    other operations) and probe rounds, no name is listed twice and every
    listed entry is the one getServer returns for its name. *)
Theorem reachable_names_unique (ops : list (@Op Params)) (w0 : World) :
  let reg := (run impl ops (new_registry, w0)).1 in
  NoDup (getServerNames reg) ∧
  ∀ name server,
    (name, server) ∈ JsMap.entries (servers reg) →
    getServer name reg = Return server.
Proof.
  simpl.
  destruct (run_keeps_names impl ops new_registry w0) as [Hnd _].
  { constructor. } { done. } { constructor. }
  split; [exact Hnd|].
  intros name server Hin. unfold getServer.
  by rewrite (JsMap_get_entry _ _ _ Hnd Hin).
Qed.

(** X5.  executeTool on a name that is not registered throws the not-found
    error, whose message lists the registered names, before anything else
    happens: the registry and all handles are as before and no handle is
    called. *)
Theorem executeTool_unknown_service name toolName params t0 t1 reg w :
  hasServer name reg = false →
  executeTool_op impl name toolName params t0 t1 reg w
  = (Throw ("MCP服务 '" +:+ name +:+ "' 未找到。可用服务: "
            +:+ String.concat ", " (getServerNames reg)),
     reg, w).
Proof.
  intros Hno. apply executeTool_op_unknown.
  unfold hasServer, JsMap.has in Hno.
  by destruct (JsMap.get name (servers reg)).
Qed.

(** X6.  When executeTool returns, the handle had reported online, exactly
    one call was made, the handle's executeTool, and the cached status of
    the service is the status object the handle returned before the call,
    as it reads after the call, with [responseTime] set to the time between
    the two clock readings.  For a handle that leaves the objects it hands
    out alone, that is the status reported before the call, which is
    online. *)
Theorem executeTool_success_status
    name toolName params t0 t1 reg w server result reg' w' :
  JsMap.get name (servers reg) = Some server →
  executeTool_op impl name toolName params t0 t1 reg w
  = (Return result, reg', w') →
  let held := held_status (impl server) (objs w server) (objs w' server) in
  online (status_of impl w server) = true ∧
  calls w' = calls w ++ [CallExecuteTool server toolName params (Return result)] ∧
  getServerStatus name reg'
  = Some {| online := online held;
            lastUpdate := lastUpdate held;
            responseTime := Some (t1 - t0);
            error := error held;
            load := load held |} ∧
  (held = status_of impl w server →
   getServerStatus name reg'
   = Some {| online := true;
             lastUpdate := lastUpdate (status_of impl w server);
             responseTime := Some (t1 - t0);
             error := error (status_of impl w server);
             load := load (status_of impl w server) |}).
Proof.
  intros Hget Hrun.
  destruct (executeTool_op_return_status impl _ _ _ _ _ _ _ _ _ _ _ Hget Hrun)
    as [Hon Hst].
  rewrite (executeTool_op_online impl _ _ _ _ _ _ _ _ Hget Hon) in Hrun.
  unfold invoke_executeTool in Hrun.
  destruct (executeTool (impl server) toolName params (objs w server))
    as [outcome s'].
  destruct outcome; simplify_eq. cbv zeta.
  split; [done|]. split; [done|]. split; [exact Hst|].
  intros Hheld. rewrite Hst, Hheld. unfold with_responseTime.
  by rewrite Hon.
Qed.



End RegistryLookupFacts.

(** ** The read methods *)

Section RegistryReadFacts.

Context {HState Params Result : Type}.
Variable impl : Ref -> @IMCPServer HState Params Result.

Implicit Types (reg : @Registry) (w : @World HState Params Result).

Lemma JsMap_get_elem_of {V : Type} k (v : V) (m : JsMap.t V) :
  JsMap.get k m = Some v → (k, v) ∈ JsMap.entries m.
Proof.
  unfold JsMap.entries. induction m as [|[k' v'] m IH]; simpl; [done|].
  destruct (String.eqb_spec k' k) as [->|Hne].
  - intros [= ->]. left.
  - intros H. right. auto.
Qed.

Lemma fold_left_add_tools (l : list Ref) : ∀ a : Z,
  fold_left (λ total server, total + Z.of_nat (length (tools (impl server))))
    l a
  = a + Z.of_nat (sum_list ((λ server, length (tools (impl server))) <$> l)).
Proof.
  induction l as [|x l IH]; intros a; simpl; [lia|].
  rewrite IH, Nat2Z.inj_add, Z.add_assoc. reflexivity.
Qed.

(** X8.  In the object returned by getStats, the online and the offline
    count add up to the total count, the online count is the number of
    cached statuses that are online, and the tool count is the sum of the
    lengths of the handles' tool lists.  When the two maps have the same
    keys (as in every reachable registry), the online count is at most the
    total and the offline count is not negative. *)
Theorem getStats_counts reg :
  let st := getStats impl reg in
  totalServers st = onlineServers st + offlineServers st ∧
  totalServers st = Z.of_nat (length (getServerNames reg)) ∧
  onlineServers st
  = Z.of_nat (length (List.filter (λ e, online e.2) (serverStatuses reg))) ∧
  totalTools st
  = Z.of_nat (sum_list ((λ e, length (tools (impl e.2))) <$> servers reg)) ∧
  (JsMap.keys (servers reg) = JsMap.keys (serverStatuses reg) →
   0 ≤ onlineServers st ≤ totalServers st ∧ 0 ≤ offlineServers st).
Proof.
  simpl. unfold getStats, getServerNames, JsMap.keys, JsMap.entries. simpl.
  assert (Hf : ∀ l : list (string * ServerStatus),
            length (List.filter online (map snd l))
            = length (List.filter (λ e, online e.2) l)).
  { induction l as [|[k v] l IH]; simpl; [done|].
    destruct (online v); simpl; by rewrite IH. }
  split; [lia|]. split; [by rewrite List.length_map|].
  split; [by rewrite Hf|]. split.
  - rewrite fold_left_add_tools. simpl. do 2 f_equal.
    rewrite <-list_fmap_compose. done.
  - intros Hk. rewrite Hf.
    pose proof (List.filter_length_le (λ e : string * ServerStatus, online e.2)
                  (serverStatuses reg)) as Hle.
    assert (length (servers reg) = length (serverStatuses reg)) as Hlen.
    { apply (f_equal length) in Hk. by rewrite !List.length_map in Hk. }
    lia.
Qed.

(** X9.  getAvailableServers returns registered names in registration
    order, and (names being unique) exactly those whose handle reports
    online when asked: the cached status plays no part. *)
Theorem getAvailableServers_spec reg w :
  sublist (getAvailableServers impl reg w) (getServerNames reg) ∧
  (NoDup (getServerNames reg) →
   ∀ name,
     name ∈ getAvailableServers impl reg w ↔
     ∃ server, JsMap.get name (servers reg) = Some server ∧
               online (status_of impl w server) = true).
Proof.
  unfold getAvailableServers, getServerNames, JsMap.keys, JsMap.entries.
  split.
  - induction (servers reg) as [|[k v] l IH]; simpl; [constructor|].
    destruct (online (status_of impl w v)); simpl.
    + by apply sublist_skip.
    + by apply sublist_cons.
  - intros Hnd name. split.
    + intros Hin. apply list_elem_of_fmap in Hin as ([k server] & -> & Hin).
      apply list_elem_of_In, List.filter_In in Hin as [Hin Hon].
      apply list_elem_of_In in Hin. exists server. simpl in *.
      split; [by apply JsMap_get_entry | done].
    + intros (server & Hget & Hon). apply list_elem_of_fmap.
      exists (name, server). split; [done|].
      apply list_elem_of_In, List.filter_In. split; [|done].
      apply list_elem_of_In. by apply JsMap_get_elem_of.
Qed.

(** X10.  getAllServersStatus returns one row per registered name, in
    registration order, with the tool list of the handle stored under that
    name.  When the two maps have the same keys, each row carries the
    cached status of its name: the fallback to the handle's own status is
    never taken. *)
Theorem getAllServersStatus_rows reg w :
  map row_name (getAllServersStatus impl reg w) = getServerNames reg ∧
  (∀ row, row ∈ getAllServersStatus impl reg w →
     ∃ server, (row_name row, server) ∈ JsMap.entries (servers reg) ∧
               row_tools row = tools (impl server)) ∧
  (JsMap.keys (servers reg) = JsMap.keys (serverStatuses reg) →
   ∀ row, row ∈ getAllServersStatus impl reg w →
     getServerStatus (row_name row) reg = Some (row_status row)).
Proof.
  unfold getAllServersStatus, getServerNames, JsMap.keys, JsMap.entries,
    getServerStatus.
  split; [|split].
  - rewrite <-list_fmap_compose. by apply list_fmap_ext.
  - intros row Hin. apply list_elem_of_fmap in Hin as ([k server] & -> & Hin).
    by exists server.
  - intros Hk row Hin.
    apply list_elem_of_fmap in Hin as ([k server] & -> & Hin). simpl.
    assert (is_Some (JsMap.get k (serverStatuses reg))) as [s Hs].
    { apply JsMap_get_keys. unfold JsMap.keys. rewrite <-Hk.
      apply list_elem_of_fmap. by exists (k, server). }
    by rewrite Hs.
Qed.

End RegistryReadFacts.

(** ** More on the load balancer *)

Section LoadBalancerMoreFacts.

Context {HState Params Result : Type}.
Variable impl : Ref -> @IMCPServer HState Params Result.

Implicit Types (w : @World HState Params Result) (servers : list Ref).
Implicit Types (lb : LoadBalancer) (u : Random).

Local Abbreviation online_of w servers :=
  (List.filter (λ server, online (status_of impl w server)) servers).

Lemma selectServer_returns_member lb u w servers :
  online_of w servers ≠ [] →
  ∃ s lb', selectServer impl lb u w servers = (Return (Some s), lb') ∧
           s ∈ online_of w servers.
Proof.
  intros Hne. rewrite selectServer_switch by done.
  destruct (String.eqb (strategy lb) ROUND_ROBIN).
  { rewrite selectRoundRobin_nonempty by done.
    destruct (lookup_lt_is_Some_2 (online_of w servers)
                (roundRobinIndex lb mod length (online_of w servers))%nat)
      as [s Hs].
    { apply Nat.mod_upper_bound. by destruct (online_of w servers). }
    rewrite Hs. eexists _, _. split; [done|].
    by eapply list_elem_of_lookup_2. }
  destruct (String.eqb (strategy lb) RANDOM).
  { destruct (selectRandom_nonempty u _ Hne) as (s & Hs & Hin).
    rewrite Hs. by eexists _, _. }
  destruct (String.eqb (strategy lb) LEAST_CONNECTIONS).
  { destruct (online_of w servers) as [|first rest] eqn:Hav; [done|].
    unfold selectLeastConnections.
    destruct (pick_least_fold impl w rest [first] first 0%nat)
      as (i & Hi & _ & _).
    - done.
    - intros s Hs. apply list_elem_of_singleton in Hs as ->. lia.
    - intros j s Hj. lia.
    - eexists _, _. split; [done|]. by eapply list_elem_of_lookup_2. }
  destruct (online_of w servers) as [|first rest] eqn:Hav; [done|].
  eexists _, _. split; [done|]. left.
Qed.

(** X11.  selectServer throws exactly when no candidate is online.  When
    none is, it throws, whatever the strategy: with an empty candidate list
    the message is the no-instance one, with candidates that are all
    offline the no-online-instance one, and the balancer is left as it was.
    As soon as one candidate is online it returns one of the online
    candidates; so a throw means that none was online. *)
Theorem selectServer_throws_exactly lb u w servers :
  (online_of w servers = [] →
   selectServer impl lb u w servers
   = (Throw match servers with
            | [] => msg_no_instances
            | _ :: _ => msg_no_online_instances
            end,
      lb)) ∧
  (online_of w servers ≠ [] →
   ∃ s lb', selectServer impl lb u w servers = (Return (Some s), lb') ∧
            s ∈ online_of w servers) ∧
  (∀ msg lb',
     selectServer impl lb u w servers = (Throw msg, lb') →
     lb' = lb ∧ online_of w servers = [] ∧
     msg = match servers with
           | [] => msg_no_instances
           | _ :: _ => msg_no_online_instances
           end).
Proof.
  assert (Hnone : online_of w servers = [] →
            selectServer impl lb u w servers
            = (Throw match servers with
                     | [] => msg_no_instances
                     | _ :: _ => msg_no_online_instances
                     end,
               lb)).
  { intros Hnil. destruct servers as [|s0 servers]; [done|].
    by apply selectServer_none_online. }
  split; [exact Hnone|]. split; [apply selectServer_returns_member|].
  intros msg lb' Hsel.
  destruct (decide (online_of w servers = [])) as [Hnil|Hne].
  - rewrite (Hnone Hnil) in Hsel. by simplify_eq.
  - destruct (selectServer_returns_member lb u w servers Hne)
      as (s & lb'' & Hret & _).
    congruence.
Qed.

(** X12.  Under round robin, with an unchanged candidate list of which [N]
    are online, call number [k] (from 0) of any run of consecutive calls
    returns the online candidate at index (cursor + k) mod N, and after [n]
    calls the cursor has advanced by [n]. *)
Theorem round_robin_kth_call (c n k : nat) us w servers :
  online_of w servers ≠ [] →
  (k < n)%nat →
  let '(picks, lb') :=
    selectServer_times impl n
      {| strategy := ROUND_ROBIN; roundRobinIndex := c |} us w servers in
  (∃ s, picks !! k = Some (Return (Some s)) ∧
        online_of w servers
          !! ((c + k) mod length (online_of w servers))%nat = Some s) ∧
  lb' = {| strategy := ROUND_ROBIN; roundRobinIndex := (c + n)%nat |}.
Proof.
  intros Hne Hk. rewrite selectServer_times_round_robin by done.
  split; [|done].
  destruct (lookup_lt_is_Some_2 (online_of w servers)
              ((c + k) mod length (online_of w servers))%nat) as [s Hs].
  { apply Nat.mod_upper_bound. by destruct (online_of w servers). }
  exists s. split; [|done].
  rewrite list_lookup_fmap, lookup_seq_lt by done. simpl. by rewrite Hs.
Qed.

(** X13.  A selection never changes the policy.  It advances the cursor by
    one exactly when the policy is round robin and a server is returned;
    in every other case, a thrown error included, the balancer is left as
    it was.  With a policy value outside the enum the first online
    candidate is returned. *)
Theorem selectServer_state_effect lb u w servers :
  let '(r, lb') := selectServer impl lb u w servers in
  strategy lb' = strategy lb ∧
  roundRobinIndex lb'
  = match r with
    | Return _ =>
        if String.eqb (strategy lb) ROUND_ROBIN
        then S (roundRobinIndex lb) else roundRobinIndex lb
    | Throw _ => roundRobinIndex lb
    end ∧
  (String.eqb (strategy lb) ROUND_ROBIN = false →
   String.eqb (strategy lb) RANDOM = false →
   String.eqb (strategy lb) LEAST_CONNECTIONS = false →
   online_of w servers ≠ [] →
   r = Return (head (online_of w servers))).
Proof.
  destruct (decide (online_of w servers = [])) as [Hnil|Hne].
  - destruct servers as [|s0 servers].
    + unfold selectServer. simpl. done.
    + rewrite selectServer_none_online by done. done.
  - rewrite selectServer_switch by done.
    destruct (String.eqb (strategy lb) ROUND_ROBIN) eqn:Hrr.
    { rewrite selectRoundRobin_nonempty by done. simpl. done. }
    destruct (String.eqb (strategy lb) RANDOM) eqn:Hrnd.
    { destruct (selectRandom_nonempty u _ Hne) as (s & -> & _). done. }
    destruct (String.eqb (strategy lb) LEAST_CONNECTIONS) eqn:Hlc.
    { destruct (online_of w servers) as [|first rest]; [done|]. simpl. done. }
    split; [done|]. split; [done|]. intros _ _ _ _.
    by destruct (online_of w servers).
Qed.

End LoadBalancerMoreFacts.

(** ** The controller in front of the registry *)

Lemma includes_app_r (s1 s2 sub : string) :
  includes s2 sub = true → includes (s1 +:+ s2) sub = true.
Proof.
  intros H. induction s1 as [|c s1 IH]; [done|].
  change (String c s1 +:+ s2) with (String c (s1 +:+ s2)).
  cbn [includes]. by destruct (String.prefix sub (String c (s1 +:+ s2))).
Qed.

Lemma msg_not_found_includes name names :
  includes (msg_not_found name names) "未找到" = true.
Proof.
  unfold msg_not_found. do 2 apply includes_app_r. reflexivity.
Qed.

Section DispatcherFacts.

Context {HState Params Result : Type}.
Variable impl : Ref -> @IMCPServer HState Params Result.
Variable description_of : Ref -> string.

Implicit Types (reg : @Registry) (w : @World HState Params Result).
Implicit Types (serverName toolName uuid : string) (tm : Times).
Implicit Types (requestIdHeader : option string).


(** X14.  The controller's own three checks come before the registry's
    executeTool, and each decides the outcome by itself: a request with an
    empty name is answered 400 INVALID_PARAMETERS; otherwise one for a
    service that is not registered is answered 404 SERVER_NOT_FOUND with
    the list of registered names; otherwise one whose cached status is
    missing or offline is answered 503 SERVER_OFFLINE with the cached error
    string.  In these three cases the registry and the handles are left as
    they were and no handle is called.  Conversely, an exception built by
    one of the checks has that check's cause, and any other outcome (a
    reply, the 500 wrap, a handle's exception passed on by the catch block)
    means all three checks passed. *)
Theorem controller_rejections_touch_nothing
    serverName toolName params requestIdHeader uuid tm reg w :
  let run :=
    controller_executeTool impl serverName toolName params requestIdHeader
      uuid tm reg w in
  let meta_of sn tn :=
    Some {| requestId := or_default requestIdHeader uuid;
            timestamp := stamp tm; executionTime := None;
            meta_serverName := sn; meta_toolName := tn |} in
  (serverName = "" ∨ toolName = "" →
   run = (Raised (BadRequestException
                    {| code := "INVALID_PARAMETERS";
                       message := "服务名称和工具名称不能为空";
                       details := NoDetails;
                       error_meta := meta_of None None |}),
          reg, w)) ∧
  (serverName ≠ "" → toolName ≠ "" → hasServer serverName reg = false →
   run = (Raised (NotFoundException
                    {| code := "SERVER_NOT_FOUND";
                       message := "MCP服务 '" +:+ serverName +:+ "' 未找到";
                       details := AvailableServers (getServerNames reg);
                       error_meta :=
                         meta_of (Some serverName) (Some toolName) |}),
          reg, w)) ∧
  (serverName ≠ "" → toolName ≠ "" → hasServer serverName reg = true →
   (∀ cached, getServerStatus serverName reg = Some cached →
              online cached = false) →
   run = (Raised (ServiceUnavailableException
                    {| code := "SERVER_OFFLINE";
                       message := "MCP服务 '" +:+ serverName +:+ "' 当前不可用";
                       details :=
                         CachedError (getServerStatus serverName reg ≫= error);
                       error_meta :=
                         meta_of (Some serverName) (Some toolName) |}),
          reg, w)) ∧
  match run.1.1 with
  | Raised (BadRequestException b) =>
      (serverName = "" ∨ toolName = "") ∧ run.1.2 = reg ∧ run.2 = w
  | Raised (NotFoundException b) =>
      serverName ≠ "" ∧ toolName ≠ "" ∧
      hasServer serverName reg = false ∧ run.1.2 = reg ∧ run.2 = w
  | Raised (ServiceUnavailableException b) =>
      serverName ≠ "" ∧ toolName ≠ "" ∧
      hasServer serverName reg = true ∧
      (∀ cached, getServerStatus serverName reg = Some cached →
                 online cached = false) ∧
      run.1.2 = reg ∧ run.2 = w
  | Raised (InternalServerErrorException _) | Replied _ | Rethrown _ _ =>
      serverName ≠ "" ∧ toolName ≠ "" ∧
      hasServer serverName reg = true ∧
      ∃ cached, getServerStatus serverName reg = Some cached ∧
                online cached = true
  end.
Proof.
  cbv zeta. unfold controller_executeTool.
  destruct (String.eqb_spec serverName "") as [Hs|Hs]; simpl.
  { split; [done|]. split; [done|]. split; [done|]. repeat split; auto. }
  destruct (String.eqb_spec toolName "") as [Ht|Ht]; simpl.
  { split; [done|]. split; [done|]. split; [done|]. repeat split; auto. }
  destruct (hasServer serverName reg) eqn:Hhas; simpl.
  2:{ split; [by intros [?|?]|]. split; [done|]. split; [done|].
      repeat split; auto. }
  destruct (getServerStatus serverName reg) as [cached|] eqn:Hst; simpl.
  - destruct (online cached) eqn:Hon; simpl.
    + split; [by intros [?|?]|]. split; [done|]. split.
      { intros _ _ _ Hoff. specialize (Hoff cached eq_refl). congruence. }
      destruct (executeTool_op impl serverName toolName params
                  (reg_start tm) (reg_end tm) reg w) as [[result reg'] w'].
      destruct result as [r|msg]; simpl.
      * repeat split; auto. by exists cached.
      * destruct (thrown_class impl serverName toolName params reg w); simpl;
          (repeat split; auto; by exists cached).
    + split; [by intros [?|?]|]. split; [done|]. split; [done|].
      repeat split; auto. intros c [= <-]. done.
  - split; [by intros [?|?]|]. split; [done|]. split; [done|].
    repeat split; auto. intros c [=].
Qed.

(** X15.  The controller has a handle called only for a request with both
    names given, on a registered service whose cached status is online and
    whose handle also reports online; it is then one call, the handle's
    executeTool with the request's tool name and parameters. *)
Theorem controller_calls_handle_only_when_online
    serverName toolName params requestIdHeader uuid tm reg w :
  let '(_, _, w') :=
    controller_executeTool impl serverName toolName params requestIdHeader
      uuid tm reg w in
  calls w' ≠ calls w →
  ∃ server cached outcome,
    serverName ≠ "" ∧ toolName ≠ "" ∧
    JsMap.get serverName (servers reg) = Some server ∧
    getServerStatus serverName reg = Some cached ∧
    online cached = true ∧
    online (status_of impl w server) = true ∧
    calls w' = calls w ++ [CallExecuteTool server toolName params outcome].
Proof.
  unfold controller_executeTool.
  destruct (String.eqb_spec serverName "") as [Hs|Hs]; simpl; [done|].
  destruct (String.eqb_spec toolName "") as [Ht|Ht]; simpl; [done|].
  destruct (hasServer serverName reg) eqn:Hhas; simpl; [|done].
  destruct (getServerStatus serverName reg) as [cached|] eqn:Hst; simpl;
    [|done].
  destruct (online cached) eqn:Hon; simpl; [|done].
  unfold hasServer, JsMap.has in Hhas.
  destruct (JsMap.get serverName (servers reg)) as [server|] eqn:Hget;
    [|done].
  destruct (online (status_of impl w server)) eqn:Hlive.
  - rewrite (executeTool_op_online impl _ _ _ _ _ _ _ _ Hget Hlive).
    unfold invoke_executeTool.
    destruct (executeTool (impl server) toolName params (objs w server))
      as [outcome s'].
    destruct outcome; simpl;
      [|destruct (thrown_class impl serverName toolName params reg w)];
      intros _; by eexists _, _, _.
  - rewrite (executeTool_op_offline impl _ _ _ _ _ _ _ _ Hget Hlive).
    simpl.
    by destruct (thrown_class impl serverName toolName params reg w).
Qed.


(** X17.  Every reply and every exception that the controller's executeTool
    builds itself carries the request id in its meta data: the x-request-id
    header when it is present and not empty, the generated uuid otherwise.
    The one outcome without it is an exception of the handle that the catch
    block passes on as it is; that happens only when the service is
    registered, its handle reported online and was called, and the call was
    rejected with a BadRequest, NotFound or ServiceUnavailable exception.
    The registry has by then cached the service as offline with the
    exception's message. *)
Theorem controller_outcome_has_request_id
    serverName toolName params requestIdHeader uuid tm reg w :
  let id := match requestIdHeader with
            | Some h => if decide (h = "") then uuid else h
            | None => uuid
            end in
  let run :=
    controller_executeTool impl serverName toolName params requestIdHeader
      uuid tm reg w in
  match run.1.1 with
  | Replied r => requestId (meta r) = id
  | Raised e => ∃ m, error_meta (body_of e) = Some m ∧ requestId m = id
  | Rethrown cls msg =>
      ∃ server,
        JsMap.get serverName (servers reg) = Some server ∧
        online (status_of impl w server) = true ∧
        (executeTool (impl server) toolName params (objs w server)).1
        = Throw msg ∧
        rejection_class (impl server) toolName params (objs w server)
        = Some cls ∧
        calls run.2
        = calls w ++ [CallExecuteTool server toolName params (Throw msg)] ∧
        getServerStatus serverName run.1.2
        = Some (with_offline_error (status_of impl run.2 server) msg)
  end.
Proof.
  cbv zeta.
  assert (or_default requestIdHeader uuid
          = match requestIdHeader with
            | Some h => if decide (h = "") then uuid else h
            | None => uuid
            end) as <-.
  { destruct requestIdHeader as [h|]; simpl; [|done].
    destruct (String.eqb_spec h ""), (decide (h = "")); done. }
  unfold controller_executeTool.
  destruct (String.eqb serverName "" || String.eqb toolName ""); simpl.
  { by eexists. }
  destruct (hasServer serverName reg); simpl.
  2:{ by eexists. }
  destruct (negb _); simpl.
  { by eexists. }
  destruct (executeTool_op impl serverName toolName params
              (reg_start tm) (reg_end tm) reg w) as [[result reg'] w'] eqn:Hop.
  destruct result as [r|msg]; simpl; [done|].
  unfold thrown_class, getServer.
  destruct (JsMap.get serverName (servers reg)) as [server|] eqn:Hget;
    [|by eexists].
  destruct (online (status_of impl w server)) eqn:Hlive; [|by eexists].
  destruct (rejection_class (impl server) toolName params (objs w server))
    as [cls|] eqn:Hcls; [|by eexists].
  simpl. exists server.
  pose proof (executeTool_op_throw_status impl _ _ _ _ _ _ _ _ _ _ _
                Hget Hop) as Hcached.
  rewrite (executeTool_op_online impl _ _ _ _ _ _ _ _ Hget Hlive) in Hop.
  unfold invoke_executeTool in Hop.
  destruct (executeTool (impl server) toolName params (objs w server))
    as [outcome s'].
  destruct outcome; simplify_eq. done.
Qed.

(** X18.  The controller's getServerTools answers 400 for an empty name,
    404 with the list of registered names for a name that is not
    registered, and otherwise the version, tools and description of the
    registered handle.  It never answers 500: the only error the registry
    raises here is the not-found one, whose message contains the text the
    controller looks for. *)
Theorem controller_getServerTools_outcomes serverName reg :
  match controller_getServerTools impl description_of serverName reg with
  | Replied t =>
      ∃ server,
        serverName ≠ "" ∧
        JsMap.get serverName (servers reg) = Some server ∧
        t = {| st_serverName := serverName;
               st_version := version (impl server);
               st_tools := tools (impl server);
               st_description := description_of server |}
  | Raised (BadRequestException b) =>
      serverName = "" ∧ code b = "INVALID_PARAMETER"
  | Raised (NotFoundException b) =>
      serverName ≠ "" ∧ hasServer serverName reg = false ∧
      code b = "SERVER_NOT_FOUND" ∧
      details b = AvailableServers (getServerNames reg)
  | Raised (ServiceUnavailableException _)
  | Raised (InternalServerErrorException _)
  | Rethrown _ _ => False
  end.
Proof.
  unfold controller_getServerTools, getServerTools, getServer, hasServer,
    JsMap.has.
  destruct (String.eqb_spec serverName "") as [Hs|Hs]; [done|].
  destruct (JsMap.get serverName (servers reg)) as [server|] eqn:Hget.
  - by exists server.
  - by rewrite msg_not_found_includes.
Qed.

End DispatcherFacts.

(** ** BaziServer behind the registry *)

Section BaziToolFacts.

Context {Params Result : Type}.
Variable bodies : string -> Params -> Completion Result.
Variable calculate_ok : bool.
Variable finish_time : Z -> Z.

Let bazi : Ref -> @IMCPServer Bazi.state Params Result :=
  fun _ => Bazi.server (BaziTools.bazi_switch bodies) calculate_ok finish_time.

(** X19.  The [switch] of BaziServer.executeTool runs a tool body exactly
    for the names in the handle's [tools] list.  A call through the
    registry with any other tool name is rejected with the unknown-tool
    message, counts as one more total request and leaves the active count
    as it was; the registry then caches the service as offline with that
    message, although the handle itself still reports online. *)
Theorem bazi_unknown_tool_marks_offline
    name toolName params t0 t1 reg
    (w : @World Bazi.state Params Result) server :
  (∀ t p, t ∈ tools (bazi server) →
          BaziTools.bazi_switch bodies t p = bodies t p) ∧
  (JsMap.get name (servers reg) = Some server →
   online (Bazi.bz_status (objs w server)) = true →
   toolName ∉ tools (bazi server) →
   ∃ reg' w' cached,
     executeTool_op bazi name toolName params t0 t1 reg w
     = (Throw ("工具 '" +:+ toolName +:+ "' 在八字服务中不存在"), reg', w') ∧
     getServerStatus name reg' = Some cached ∧
     online cached = false ∧
     error cached
     = Some ("工具 '" +:+ toolName +:+ "' 在八字服务中不存在") ∧
     Bazi.bz_totalRequests (objs w' server)
     = Bazi.bz_totalRequests (objs w server) + 1 ∧
     Bazi.bz_activeRequests (objs w' server)
     = Bazi.bz_activeRequests (objs w server) ∧
     online (status_of bazi w' server) = true).
Proof.
  assert (Hmem : ∀ t,
            existsb (String.eqb t)
              ["getBaziDetail"; "getBaziFortune"; "getCompatibility";
               "getLuckyInfo"] = true
            ↔ t ∈ tools (bazi server)).
  { intros t.
    change (tools (bazi server))
      with ["getBaziDetail"; "getBaziFortune"; "getCompatibility";
            "getLuckyInfo"].
    rewrite List.existsb_exists. split.
    - intros (x & Hin & Heq). apply String.eqb_eq in Heq as ->.
      by apply list_elem_of_In.
    - intros Hin. exists t. split; [by apply list_elem_of_In|].
      apply String.eqb_refl. }
  split.
  - intros t p Hin. unfold BaziTools.bazi_switch.
    apply Hmem in Hin. by rewrite Hin.
  - intros Hget Hon Hnot.
    assert (BaziTools.bazi_switch bodies toolName params
            = Throw ("工具 '" +:+ toolName +:+ "' 在八字服务中不存在")) as Hsw.
    { unfold BaziTools.bazi_switch.
      destruct (existsb (String.eqb toolName) _) eqn:Hex; [|done].
      exfalso. apply Hnot. by apply Hmem. }
    rewrite (executeTool_op_online bazi _ _ _ _ _ _ _ _ Hget Hon).
    unfold invoke_executeTool. simpl. rewrite Hsw.
    eexists _, _, _. split; [done|].
    split; [apply getServerStatus_update_eq|]. simpl.
    rewrite fn_lookup_insert. simpl.
    split; [done|]. split; [done|]. split; [done|]. split; [lia|].
    unfold status_of. simpl. rewrite fn_lookup_insert. done.
Qed.

End BaziToolFacts.

(** ** Guards and middleware *)

Lemma strict_eq_true (a b : option string) : strict_eq a b = true ↔ a = b.
Proof.
  destruct a as [x|], b as [y|]; simpl; try done.
  rewrite String.eqb_eq. split; congruence.
Qed.

Lemma prefix_refl (s : string) : String.prefix s s = true.
Proof.
  induction s as [|c s IH]; simpl; [done|].
  destruct (Ascii.ascii_dec c c); [done|congruence].
Qed.

(** X20.  ApiKeyGuard lets a request through exactly when no API key is
    configured (the setting is missing or empty) or the x-api-key header
    equals the configured key; in every other case it throws the 401
    exception.  It never answers false. *)
Theorem canActivate_grants_exactly (apiKey requestApiKey : option string) :
  (canActivate apiKey requestApiKey = Activated ↔
   apiKey = None ∨ apiKey = Some "" ∨ requestApiKey = apiKey) ∧
  (canActivate apiKey requestApiKey ≠ Activated →
   canActivate apiKey requestApiKey
   = Unauthorized "INVALID_API_KEY" "API Key 无效或缺失").
Proof.
  unfold canActivate.
  destruct apiKey as [k|]; simpl; [|split; [split; auto | done]].
  destruct (String.eqb_spec k "") as [->|Hk]; simpl.
  { split; [split; auto | done]. }
  destruct requestApiKey as [h|]; simpl.
  - destruct (String.eqb_spec h "") as [->|Hh]; simpl.
    + split; [|done]. split; [done|]. intros [?|[?|?]]; congruence.
    + destruct (String.eqb_spec h k) as [->|Hhk]; simpl.
      * split; [split; auto | done].
      * split; [|done]. split; [done|]. intros [?|[?|?]]; congruence.
  - split; [|done]. split; [done|]. intros [?|[?|?]]; congruence.
Qed.

(** X21.  authMiddleware checks no credential for a path that starts with
    /api or with /health: whatever the configured key and secret and
    whatever the request sends, the request goes on to the next handler
    with no user attached. *)
Theorem authMiddleware_skips_prefixed_paths
    path apiKey apiSecret validApiKey validApiSecret :
  String.prefix "/api" path = true ∨ String.prefix "/health" path = true →
  authMiddleware path apiKey apiSecret validApiKey validApiSecret = Next None.
Proof.
  intros H. unfold authMiddleware, skipAuthPaths. cbn [existsb].
  destruct H as [-> | ->]; by rewrite ?orb_true_r.
Qed.

(** X22.  For any other path: with neither a key nor a secret configured the
    request goes on with no user attached; otherwise it goes on, with the
    user built from the request's key, exactly when each configured
    credential is matched by the request, and is answered 401 otherwise,
    the key being checked before the secret. *)
Theorem authMiddleware_decision
    path apiKey apiSecret validApiKey validApiSecret :
  String.prefix "/api" path = false →
  String.prefix "/health" path = false →
  match authMiddleware path apiKey apiSecret validApiKey validApiSecret with
  | Next None => truthy validApiKey = false ∧ truthy validApiSecret = false
  | Next (Some user) =>
      (truthy validApiKey = true ∨ truthy validApiSecret = true) ∧
      (truthy validApiKey = true → apiKey = validApiKey) ∧
      (truthy validApiSecret = true → apiSecret = validApiSecret) ∧
      user_id user = "user_" +:+ user_apiKey user ∧
      user_apiKey user = (if truthy apiKey
                          then default "" apiKey else "anonymous")
  | Respond401 c =>
      (c = "INVALID_API_KEY" ∧
       truthy validApiKey = true ∧ apiKey ≠ validApiKey) ∨
      (c = "INVALID_API_SECRET" ∧
       truthy validApiSecret = true ∧ apiSecret ≠ validApiSecret ∧
       (truthy validApiKey = true → apiKey = validApiKey))
  end.
Proof.
  intros Hapi Hhealth. unfold authMiddleware, skipAuthPaths. cbn [existsb].
  rewrite Hapi, Hhealth, !orb_false_r.
  destruct (String.eqb_spec path "/health") as [->|_]; [done|].
  destruct (String.eqb_spec path "/api") as [->|_]; [done|]. simpl.
  destruct (truthy validApiKey) eqn:Hvk, (truthy validApiSecret) eqn:Hvs;
    simpl; try done.
  - destruct (strict_eq apiKey validApiKey) eqn:Hk; simpl.
    + apply strict_eq_true in Hk.
      destruct (strict_eq apiSecret validApiSecret) eqn:Hs; simpl.
      * apply strict_eq_true in Hs. repeat split; auto.
        subst. destruct validApiKey as [k|]; [|done]. simpl in *.
        by destruct (String.eqb k "").
      * right. repeat split; auto. intros ->.
        by rewrite (proj2 (strict_eq_true _ _) eq_refl) in Hs.
    + left. repeat split; auto. intros ->.
      by rewrite (proj2 (strict_eq_true _ _) eq_refl) in Hk.
  - destruct (strict_eq apiKey validApiKey) eqn:Hk; simpl.
    + apply strict_eq_true in Hk. repeat split; auto; try done.
      subst. destruct validApiKey as [k|]; [|done]. simpl in *.
      by destruct (String.eqb k "").
    + left. repeat split; auto. intros ->.
      by rewrite (proj2 (strict_eq_true _ _) eq_refl) in Hk.
  - destruct (strict_eq apiSecret validApiSecret) eqn:Hs; simpl.
    + apply strict_eq_true in Hs. repeat split; auto; try done.
      destruct apiKey as [k|]; simpl; [|done].
      by destruct (String.eqb k "").
    + right. repeat split; auto; try done. intros ->.
      by rewrite (proj2 (strict_eq_true _ _) eq_refl) in Hs.
Qed.

(** X23.  validateRequest always hands the request on to the next handler:
    also after it has sent the 400 VALIDATION_ERROR response, which it
    sends exactly for a POST request whose body the schema rejects. *)
Theorem validateRequest_always_continues {Body E : Type}
    (validate : Body -> option E) (method : string) (body : Body) :
  next_called (validateRequest validate method body) = true ∧
  sent_400 (validateRequest validate method body)
  = (if decide (method = "POST") then validate body else None).
Proof.
  unfold validateRequest.
  destruct (String.eqb_spec method "POST"), (decide (method = "POST"));
    simpl; try done.
  by destruct (validate body).
Qed.

(** ** The exception filter after the controller *)

(** X24.  For every exception the controller's executeTool builds itself
    (the 400, 404 and 503 of its checks and the 500 wrap) the filter
    answers with the status of the exception's class and derives the
    top-level error code from that status alone (BAD_REQUEST, NOT_FOUND,
    SERVICE_UNAVAILABLE, INTERNAL_ERROR): the controller's own code is not
    the one at top level, and the text put in [error.message] is the
    controller's whole error object.  For an exception of the handle that
    the catch block passes on, the filter answers with the status of its
    class, whatever response object it carries. *)
Theorem filter_after_controller {HState Params Result : Type}
    (impl : Ref -> @IMCPServer HState Params Result)
    serverName toolName params requestIdHeader uuid tm reg w :
  let outcome :=
    (controller_executeTool impl serverName toolName params requestIdHeader
       uuid tm reg w).1.1 in
  (∀ e, outcome = Raised e →
     let out := filter_catch (caught_of e) in
     f_status out = http_status e ∧
     f_message out = JsOther (body_of e) ∧
     f_code out ≠ JsString (code (body_of e)) ∧
     ((f_status out = 400 ∧ f_code out = JsString "BAD_REQUEST" ∧
       code (body_of e) = "INVALID_PARAMETERS") ∨
      (f_status out = 404 ∧ f_code out = JsString "NOT_FOUND" ∧
       code (body_of e) = "SERVER_NOT_FOUND") ∨
      (f_status out = 503 ∧ f_code out = JsString "SERVICE_UNAVAILABLE" ∧
       code (body_of e) = "SERVER_OFFLINE") ∨
      (f_status out = 500 ∧ f_code out = JsString "INTERNAL_ERROR" ∧
       code (body_of e) = "EXECUTION_ERROR"))) ∧
  (∀ cls msg, outcome = Rethrown cls msg →
     ∀ response : ExceptionResponse ErrorBody,
       let out := filter_catch (CaughtHttp (class_status cls) response) in
       f_status out = class_status cls ∧
       (f_status out = 400 ∨ f_status out = 404 ∨ f_status out = 503)).
Proof.
  cbv zeta. split.
  - intros e. unfold controller_executeTool.
    destruct (String.eqb serverName "" || String.eqb toolName ""); simpl.
    { intros [= <-]. simpl. repeat split; [discriminate | by left]. }
    destruct (hasServer serverName reg); simpl.
    2:{ intros [= <-]. simpl.
        repeat split; [discriminate | right; by left]. }
    destruct (negb _); simpl.
    { intros [= <-]. simpl.
      repeat split; [discriminate | right; right; by left]. }
    destruct (executeTool_op impl serverName toolName params
                (reg_start tm) (reg_end tm) reg w) as [[result reg'] w'].
    destruct result; simpl; [done|].
    destruct (thrown_class impl serverName toolName params reg w);
      simpl; [done|].
    intros [= <-]. simpl.
    repeat split; [discriminate | right; right; by right].
  - intros cls msg _ response.
    assert (f_status (filter_catch (CaughtHttp (class_status cls) response))
            = class_status cls) as Hst by (by destruct response).
    split; [exact Hst|]. rewrite Hst. destruct cls; simpl; auto.
Qed.

(** ** BaziServer: validation and scores *)

(** X25.  validateBaziParams accepts exactly the parameters with a non-empty
    birth date that parses to a time between 1900-01-01 (UTC) and now, both
    ends included, a gender that is male or female and a calendar type that
    is solar or lunar. *)
Theorem validateBaziParams_accepts_exactly
    (parse : string -> option Z) (now : Z) (params : BaziTools.BaziParams) :
  BaziTools.validateBaziParams parse now params = Return tt ↔
  ∃ d t,
    BaziTools.birthDate params = Some d ∧ d ≠ "" ∧
    (BaziTools.gender params = Some "male" ∨
     BaziTools.gender params = Some "female") ∧
    (BaziTools.calendarType params = Some "solar" ∨
     BaziTools.calendarType params = Some "lunar") ∧
    parse d = Some t ∧ BaziTools.minDate ≤ t ≤ now.
Proof.
  unfold BaziTools.validateBaziParams.
  destruct params as [bd g ct]. simpl.
  destruct bd as [d|]; simpl.
  2:{ split; [done|]. by intros (d & t & ? & _). }
  destruct (String.eqb_spec d "") as [->|Hd]; simpl.
  { split; [done|]. intros (d & t & [= <-] & ? & _). done. }
  assert (Hopt : ∀ (v : option string) (a b : string),
            a ≠ "" → b ≠ "" →
            (negb (truthy v)
             || negb (existsb (λ x, strict_eq v (Some x)) [a; b]) = false)
            ↔ (v = Some a ∨ v = Some b)).
  { intros v a b Ha Hb. destruct v as [x|]; simpl.
    - destruct (String.eqb_spec x a) as [Hxa|Hxa],
               (String.eqb_spec x b) as [Hxb|Hxb],
               (String.eqb_spec x "") as [Hx|Hx]; simpl;
        split; intros H;
        first [ done | left; congruence | right; congruence
              | destruct H as [[= ?]|[= ?]]; congruence ].
    - split; [done|]. intros [?|?]; done. }
  destruct (negb (truthy g) || _) eqn:Hg.
  { split; [done|]. intros (d' & t & _ & _ & Hg' & _).
    apply (Hopt g "male" "female") in Hg'; [|done|done].
    cbn [existsb] in Hg'. congruence. }
  apply (Hopt g "male" "female") in Hg; [|done|done].
  destruct (negb (truthy ct) || _) eqn:Hct.
  { split; [done|]. intros (d' & t & _ & _ & _ & Hct' & _).
    apply (Hopt ct "solar" "lunar") in Hct'; [|done|done].
    cbn [existsb] in Hct'. congruence. }
  apply (Hopt ct "solar" "lunar") in Hct; [|done|done].
  destruct (parse d) as [t|] eqn:Hp.
  2:{ split; [done|]. intros (d' & t & [= <-] & _ & _ & _ & Hp' & _).
      congruence. }
  destruct (Z.gtb_spec t now) as [Hgt|Hle].
  { split; [done|]. intros (d' & t' & [= <-] & _ & _ & _ & Hp' & Hr).
      rewrite Hp in Hp'. simplify_eq. lia. }
  destruct (Z.ltb_spec t BaziTools.minDate) as [Hlt|Hge].
  { split; [done|]. intros (d' & t' & [= <-] & _ & _ & _ & Hp' & Hr).
      rewrite Hp in Hp'. simplify_eq. lia. }
  split; [|done]. intros _. exists d, t. repeat split; auto; lia.
Qed.

Lemma element_score_closed_form (d1 d2 : string -> option Z) :
  BaziTools.calculateElementCompatibility d1 d2
  = 50 + 10 * Z.of_nat
             (length (List.filter
                        (λ e, (BaziTools.count_of d1 e >? 0)
                              && (BaziTools.count_of d2 e >? 0))
                        BaziTools.five_elements)) ∧
  50 ≤ BaziTools.calculateElementCompatibility d1 d2 ≤ 100.
Proof.
  unfold BaziTools.calculateElementCompatibility, BaziTools.five_elements,
    BaziTools.add_common.
  cbn [fold_left List.filter].
  repeat (match goal with
          | |- context [ (?a >? 0) && (?b >? 0) ] =>
              destruct ((a >? 0) && (b >? 0))
          end);
    cbn [length]; repeat split; lia.
Qed.

(** X26.  The five-element score is 50 plus 10 for each of the five
    elements that both distributions count at least once: it lies between
    50 and 100 (the [Math.min] cap is never needed) and does not depend on
    the order of the two persons. *)
Theorem calculateElementCompatibility_range (d1 d2 : string -> option Z) :
  let score := BaziTools.calculateElementCompatibility d1 d2 in
  score
  = 50 + 10 * Z.of_nat
             (length (List.filter
                        (λ e, (BaziTools.count_of d1 e >? 0)
                              && (BaziTools.count_of d2 e >? 0))
                        BaziTools.five_elements)) ∧
  50 ≤ score ≤ 100 ∧
  score = BaziTools.calculateElementCompatibility d2 d1.
Proof.
  simpl. destruct (element_score_closed_form d1 d2) as [Hform Hrange].
  split; [exact Hform|]. split; [exact Hrange|].
  rewrite Hform, (proj1 (element_score_closed_form d2 d1)).
  do 4 f_equal. apply List.filter_ext. intros e. apply andb_comm.
Qed.

(** X27.  In the result of calculateCompatibility the overall score lies
    between 70 and 99, the character score between 80 and 99, the life
    score between 75 and 99 and the element score between 50 and 100; the
    conclusion is the best one exactly from 85 up and the weakest one
    exactly below 75. *)
Theorem calculateCompatibility_ranges (d1 d2 : string -> option Z)
    (u1 u2 u3 : Random) :
  let c := BaziTools.calculateCompatibility d1 d2 u1 u2 u3 in
  70 ≤ BaziTools.overall c ≤ 99 ∧
  80 ≤ BaziTools.aspect_character c ≤ 99 ∧
  75 ≤ BaziTools.aspect_life c ≤ 99 ∧
  50 ≤ BaziTools.aspect_element c ≤ 100 ∧
  (BaziTools.conclusion c = "天作之合，非常匹配" ↔ 85 ≤ BaziTools.overall c) ∧
  (BaziTools.conclusion c = "一般匹配，需要努力经营"
   ↔ BaziTools.overall c < 75).
Proof.
  simpl.
  pose proof (random_index_lt u1 30 ltac:(lia)) as H1.
  pose proof (random_index_lt u2 20 ltac:(lia)) as H2.
  pose proof (random_index_lt u3 25 ltac:(lia)) as H3.
  pose proof (element_score_closed_form d1 d2) as (_ & He).
  split; [lia|]. split; [lia|]. split; [lia|]. split; [exact He|].
  destruct (Z.geb_spec (Z.of_nat (random_index u1 30) + 70) 85) as [Hge|Hlt].
  - split; [split; [lia | done] | split; [done | lia]].
  - destruct (Z.geb_spec (Z.of_nat (random_index u1 30) + 70) 75)
      as [Hge'|Hlt'].
    + split; [split; [done | lia] | split; [done | lia]].
    + split; [split; [done | lia] | split; [lia | done]].
Qed.

(** ** Instances of the further facts on concrete runs *)

Lemma unregister_then_lookup_witness :
  let reg := Stub.registered2 (Stub.world (Stub.with_active 0)) in
  well_formed reg ∧
  hasServer "svc-a" (unregister "svc-a" reg) = false ∧
  getServerNames (unregister "svc-a" reg) = ["svc-b"].
Proof.
  assert (well_formed (Stub.registered2 (Stub.world (Stub.with_active 0))))
    as Hwf.
  { split; [|reflexivity].
    apply NoDup_cons. split.
    - intros H. apply elem_of_cons in H as [H|H]; [discriminate H|].
      inversion H.
    - apply NoDup_singleton. }
  split; [exact Hwf|].
  split; [|reflexivity].
  exact (proj1 (unregister_then_lookup "svc-a"
                  (Stub.registered2 (Stub.world (Stub.with_active 0))) Hwf)).
Defined.

Lemma executeTool_unknown_service_witness :
  let w := Stub.world (Stub.with_active 0) in
  let reg := Stub.registered w in
  hasServer "missing" reg = false ∧
  executeTool_op Stub.impl "missing" "op1" tt 100 105 reg w
  = (Throw "MCP服务 'missing' 未找到。可用服务: svc-a", reg, w).
Proof.
  split; [reflexivity|].
  exact (executeTool_unknown_service Stub.impl "missing" "op1" tt 100 105
           (Stub.registered (Stub.world (Stub.with_active 0)))
           (Stub.world (Stub.with_active 0)) eq_refl).
Defined.

Lemma executeTool_success_status_witness :
  let w := LiveStub.world LiveStub.closing in
  let reg := LiveStub.registered w in
  JsMap.get "svc-a" (servers reg) = Some 0%nat ∧
  ∃ reg' w',
    executeTool_op LiveStub.impl "svc-a" "op1" tt 100 105 reg w
    = (Return tt, reg', w') ∧
    getServerStatus "svc-a" reg'
    = Some {| online := false; lastUpdate := 0; responseTime := Some 5;
              error := None;
              load := Some {| activeRequests := 0; totalRequests := 1 |} |}.
Proof.
  split; [reflexivity|].
  eexists _, _. split; [reflexivity|].
  exact (proj1 (proj2 (proj2
           (executeTool_success_status LiveStub.impl "svc-a" "op1" tt 100 105
              (LiveStub.registered (LiveStub.world LiveStub.closing))
              (LiveStub.world LiveStub.closing) 0%nat tt _ _
              eq_refl eq_refl)))).
Defined.

Lemma round_robin_kth_call_witness :
  let w := Stub.world (Stub.with_active 0) in
  let us := fun _ : nat => {| numer := 0; slack := 0 |} in
  List.filter (λ server, online (status_of Stub.impl w server))
    [0%nat; 1%nat] ≠ [] ∧
  (2 < 3)%nat ∧
  (selectServer_times Stub.impl 3
     {| strategy := ROUND_ROBIN; roundRobinIndex := 1%nat |}
     us w [0%nat; 1%nat]).1 !! 2%nat
  = Some (Return (Some 1%nat)).
Proof.
  assert (List.filter
            (λ server, online (status_of Stub.impl
               (Stub.world (Stub.with_active 0)) server))
            [0%nat; 1%nat] ≠ []) as Hne by discriminate.
  assert (2 < 3)%nat as Hlt by lia.
  split; [exact Hne|]. split; [exact Hlt|].
  pose proof (round_robin_kth_call Stub.impl 1 3 2
                (fun _ => {| numer := 0; slack := 0 |})
                (Stub.world (Stub.with_active 0)) [0%nat; 1%nat] Hne Hlt) as H.
  destruct (selectServer_times Stub.impl 3
              {| strategy := ROUND_ROBIN; roundRobinIndex := 1%nat |}
              (fun _ => {| numer := 0; slack := 0 |})
              (Stub.world (Stub.with_active 0)) [0%nat; 1%nat])
    as [picks lb'].
  destruct H as [(s & Hpick & Hidx) _].
  injection Hidx as <-. exact Hpick.
Defined.


Lemma bazi_unknown_tool_marks_offline_witness :
  let bazi := fun _ : Ref =>
    Bazi.server (BaziTools.bazi_switch (fun _ (_ : unit) => Return tt))
      true (fun _ => 0) in
  let w := {| objs := fun _ : Ref => Bazi.initial 0;
              calls := @nil (@Call unit unit);
              pending := [] |} in
  let reg := register bazi "bazi" 0%nat w new_registry in
  ("nope" ∉ tools (bazi 0%nat)) ∧
  ∃ reg' w' cached,
    executeTool_op bazi "bazi" "nope" tt 100 105 reg w
    = (Throw "工具 'nope' 在八字服务中不存在", reg', w') ∧
    getServerStatus "bazi" reg' = Some cached ∧
    online cached = false.
Proof.
  assert ("nope" ∉ ["getBaziDetail"; "getBaziFortune"; "getCompatibility";
                    "getLuckyInfo"]) as Hnot.
  { intros H.
    repeat (apply elem_of_cons in H as [H|H]; [discriminate H|]).
    inversion H. }
  split; [exact Hnot|].
  destruct (proj2 (bazi_unknown_tool_marks_offline
                     (fun _ (_ : unit) => Return tt) true (fun _ => 0)
                     "bazi" "nope" tt 100 105
                     (register
                        (fun _ : Ref =>
                           Bazi.server
                             (BaziTools.bazi_switch
                                (fun _ (_ : unit) => Return tt))
                             true (fun _ => 0))
                        "bazi" 0%nat
                        {| objs := fun _ : Ref => Bazi.initial 0;
                           calls := @nil (@Call unit unit);
                           pending := [] |}
                        new_registry)
                     {| objs := fun _ : Ref => Bazi.initial 0;
                        calls := @nil (@Call unit unit);
                        pending := [] |} 0%nat)
              eq_refl eq_refl Hnot)
    as (reg' & w' & cached & Hrun & Hget & Hoff & _).
  exists reg', w', cached. split; [exact Hrun|]. split; [exact Hget|exact Hoff].
Defined.

Lemma authMiddleware_skips_prefixed_paths_witness :
  (String.prefix "/api" "/api-tools/run" = true ∨
   String.prefix "/health" "/api-tools/run" = true) ∧
  authMiddleware "/api-tools/run" (Some "wrong") None (Some "key") (Some "secret")
  = Next None.
Proof.
  assert (String.prefix "/api" "/api-tools/run" = true ∨
          String.prefix "/health" "/api-tools/run" = true) as H
    by (left; reflexivity).
  split; [exact H|].
  exact (authMiddleware_skips_prefixed_paths "/api-tools/run"
           (Some "wrong") None (Some "key") (Some "secret") H).
Defined.

Lemma authMiddleware_decision_witness :
  String.prefix "/api" "/bazi/getBaziDetail" = false ∧
  String.prefix "/health" "/bazi/getBaziDetail" = false ∧
  match authMiddleware "/bazi/getBaziDetail" (Some "key") None
          (Some "key") None with
  | Next (Some user) => user_id user = "user_key"
  | _ => False
  end.
Proof.
  split; [reflexivity|]. split; [reflexivity|].
  pose proof (authMiddleware_decision "/bazi/getBaziDetail" (Some "key") None
                (Some "key") None eq_refl eq_refl) as H.
  simpl in H. simpl. destruct H as (_ & _ & _ & Hid & _).
  exact Hid.
Defined.

Lemma controller_outcome_has_request_id_witness :
  let w := LiveStub.world LiveStub.refusing in
  let reg := LiveStub.registered w in
  let tm := {| ctl_start := 100; reg_start := 101; reg_end := 104;
               ctl_end := 105; stamp := 105 |} in
  ∃ reg' w',
    controller_executeTool LiveStub.impl "svc-a" "op1" tt None "id-1" tm reg w
    = (Rethrown IsServiceUnavailable "busy", reg', w') ∧
    calls w' = [CallExecuteTool 0%nat "op1" tt (Throw "busy")] ∧
    (error <$> getServerStatus "svc-a" reg') = Some (Some "busy").
Proof.
  eexists _, _. split; [reflexivity|].
  destruct (controller_outcome_has_request_id LiveStub.impl
              "svc-a" "op1" tt None "id-1"
              {| ctl_start := 100; reg_start := 101; reg_end := 104;
                 ctl_end := 105; stamp := 105 |}
              (LiveStub.registered (LiveStub.world LiveStub.refusing))
              (LiveStub.world LiveStub.refusing))
    as (server & Hget & _ & _ & _ & Hcalls & Hcached).
  injection Hget as <-. split; [exact Hcalls|].
  etransitivity; [exact (f_equal (fmap error) Hcached) | reflexivity].
Defined.

Lemma filter_after_controller_witness :
  let w := Stub.world (Stub.with_active 0) in
  let reg := Stub.registered w in
  let tm := {| ctl_start := 100; reg_start := 101; reg_end := 104;
               ctl_end := 105; stamp := 105 |} in
  ∃ e,
    (controller_executeTool Stub.impl "missing" "op1" tt None "id-1" tm reg w).1.1
    = Raised e ∧
    code (body_of e) = "SERVER_NOT_FOUND" ∧
    f_status (filter_catch (caught_of e)) = 404 ∧
    f_code (filter_catch (caught_of e)) = JsString "NOT_FOUND".
Proof.
  eexists. split; [reflexivity|]. split; [reflexivity|].
  destruct (proj1 (filter_after_controller Stub.impl "missing" "op1" tt None
                     "id-1"
                     {| ctl_start := 100; reg_start := 101; reg_end := 104;
                        ctl_end := 105; stamp := 105 |}
                     (Stub.registered (Stub.world (Stub.with_active 0)))
                     (Stub.world (Stub.with_active 0))) _ eq_refl)
    as (Hstatus & _ & _ & _).
  split; [exact Hstatus | reflexivity].
Defined.
